(** * PyMonitorLib: typed configuration loader and metric pipeline

    A shallow embedding of [monitor/lib/config.py], [monitor/lib/database.py]
    and [monitor/lib/metrics.py], followed by the properties of the
    specification that were checked against it.

    Python values are a small universe [pyval]; dictionaries are association
    lists in insertion order (the order Python iterates them in); exceptions
    are values of [exn] carried by [result]; methods that mutate [self] are
    state-passing functions returning the outcome together with the object
    as the call leaves it, so that what an escaping exception leaves behind
    stays visible. *)

From Stdlib Require Import ZArith List String Ascii Bool Lia QArith.
From Stdlib Require Import Floats.SpecFloat DecimalString.
From Stdlib Require DecimalPos DecimalZ.
Import ListNotations.
Local Open Scope string_scope.
Local Open Scope Z_scope.

(** ** Python built-ins used by the library *)

Module Py.

(** Text is ASCII: a [string] is the sequence of code points of a Python
    [str] whose characters are all below 128. *)

(** [str.isspace] on one ASCII character: TAB, LF, VT, FF, CR, the four
    separators FS, GS, RS, US, and the space. *)
Definition is_space (c : ascii) : bool :=
  let n := nat_of_ascii c in
  ((9 <=? n) && (n <=? 13))%nat || ((28 <=? n) && (n <=? 32))%nat.

Definition is_digit (c : ascii) : bool :=
  let n := nat_of_ascii c in ((48 <=? n) && (n <=? 57))%nat.

Definition digit_val (c : ascii) : Z := Z.of_nat (nat_of_ascii c) - 48.

Definition lower_char (c : ascii) : ascii :=
  let n := nat_of_ascii c in
  if ((65 <=? n) && (n <=? 90))%nat then ascii_of_nat (n + 32) else c.

(** [s.lower()] *)
Fixpoint lower (s : string) : string :=
  match s with
  | EmptyString => EmptyString
  | String c r => String (lower_char c) (lower r)
  end.

Fixpoint lstrip (s : string) : string :=
  match s with
  | EmptyString => EmptyString
  | String c r => if is_space c then lstrip r else s
  end.

(** Drops the trailing white space: a character is kept when it is not a
    space or when something is kept after it. *)
Fixpoint rstrip (s : string) : string :=
  match s with
  | EmptyString => EmptyString
  | String c r =>
      match rstrip r with
      | EmptyString => if is_space c then EmptyString else String c EmptyString
      | r' => String c r'
      end
  end.

(** [s.strip()] *)
Definition strip (s : string) : string := rstrip (lstrip s).

(** [s.split()] with no argument: the maximal runs of non-space
    characters, in order; [cur] is the run being read, reversed. *)
Fixpoint split_from (cur : list ascii) (s : string) : list string :=
  match s with
  | EmptyString =>
      match cur with
      | [] => []
      | _ => [string_of_list_ascii (rev cur)]
      end
  | String c r =>
      if is_space c then
        match cur with
        | [] => split_from [] r
        | _ => string_of_list_ascii (rev cur) :: split_from [] r
        end
      else split_from (c :: cur) r
  end.

Definition split (s : string) : list string := split_from [] s.

(** [s.split(sep)] for a one-character separator: every occurrence cuts,
    so the result always has one more piece than [s] has separators. *)
Fixpoint split_on (sep : ascii) (s : string) : list string :=
  match s with
  | EmptyString => [EmptyString]
  | String c r =>
      if Ascii.eqb c sep then EmptyString :: split_on sep r
      else
        match split_on sep r with
        | [] => [String c EmptyString]
        | p :: ps => String c p :: ps
        end
  end.

(** [c in s] for a one-character [c] *)
Fixpoint contains (c : ascii) (s : string) : bool :=
  match s with
  | EmptyString => false
  | String d r => Ascii.eqb d c || contains c r
  end.

(** Number of occurrences of [c] in [s] ([s.count(c)]). *)
Fixpoint count_char (c : ascii) (s : string) : nat :=
  match s with
  | EmptyString => O
  | String d r => ((if Ascii.eqb d c then 1 else 0) + count_char c r)%nat
  end.

(** [s.replace(old, new)] for one-character [old] and [new]: every
    occurrence is replaced. *)
Fixpoint replace (old new : ascii) (s : string) : string :=
  match s with
  | EmptyString => EmptyString
  | String c r =>
      String (if Ascii.eqb c old then new else c) (replace old new r)
  end.

(** [x in l] for a list of strings *)
Definition mem (x : string) (l : list string) : bool :=
  existsb (String.eqb x) l.

(** *** Exceptions

    The built-in exception classes the library meets, the three classes
    [config.py] declares ([InvalidConfigError] derives from [ConfigError]),
    what [configparser] raises on a file it cannot parse, and the classes of
    [requests] and [urllib3] that [MetricPipeline.Flush] tells apart.  All
    of them derive from [Exception]; [NotImplementedError] and
    [RecursionError] derive from [RuntimeError], and [NewConnectionError]
    from [ConnectTimeoutError].  An [HTTPError] carries the status code of
    its response, when it has a response. *)
Inductive exn : Type :=
| KeyError (msg : string)
| TypeError
| ValueError
| AttributeError
| OverflowError
| RuntimeError (msg : string)
| NotImplementedError
| RecursionError
| ConfigParserError
| ConfigError (msg : string)
| InvalidConfigError (msg : string)
| ConversionFailure (msg : string)
| Timeout
| ConnectTimeoutError
| ConnectionError
| NewConnectionError
| MaxRetryError
| ProtocolError
| HTTPError (response : option Z)
| TooManyRedirects
| RequestException
| OtherException.

(** The outcome of a call: it returns a value or an exception leaves it. *)
Inductive result (A : Type) : Type :=
| Ok (a : A)
| Raise (e : exn).
Arguments Ok {A} a.
Arguments Raise {A} e.

Definition rbind {A B : Type} (r : result A) (k : A -> result B) : result B :=
  match r with
  | Ok a => k a
  | Raise e => Raise e
  end.

Definition rmap {A B : Type} (f : A -> B) (r : result A) : result B :=
  rbind r (fun a => Ok (f a)).

(** *** Numbers

    A Python [float] is an IEEE 754 binary64 number, here a [spec_float]
    of precision 53 and exponent bound 1024; an [int] is a [Z]. *)
Definition prec : Z := 53.
Definition emax : Z := 1024.

(** The binary64 nearest to [(-1)^neg * m * 10^e], ties to even, as
    [float] rounds a decimal literal. *)
Definition float_of_decimal (neg : bool) (m e : Z) : spec_float :=
  match m with
  | Zpos p =>
      if 0 <=? e
      then binary_normalize prec emax (cond_Zopp neg (m * 10 ^ e)) 0 neg
      else SFdiv prec emax (S754_finite neg p 0)
                           (S754_finite false (Z.to_pos (10 ^ (- e))) 0)
  | _ => S754_zero neg
  end.

(** [float(z)] for an [int]: rounded to nearest, [OverflowError] when the
    result does not fit. *)
Definition float_of_int (z : Z) : result spec_float :=
  match binary_normalize prec emax z 0 false with
  | S754_infinity _ => Raise OverflowError
  | f => Ok f
  end.

(** [int(f)] for a [float]: truncation toward zero; infinities raise
    [OverflowError] and NaN raises [ValueError]. *)
Definition int_of_float (f : spec_float) : result Z :=
  match f with
  | S754_zero _ => Ok 0
  | S754_finite s m e =>
      Ok (cond_Zopp s (if 0 <=? e then Zpos m * 2 ^ e else Zpos m / 2 ^ (- e)))
  | S754_infinity _ => Raise OverflowError
  | S754_nan => Raise ValueError
  end.

(** The exact value of a finite float, as a fraction. *)
Definition float_value (f : spec_float) : option Q :=
  match f with
  | S754_zero _ => Some (0 # 1)
  | S754_finite s m e =>
      Some (if 0 <=? e then (cond_Zopp s (Zpos m * 2 ^ e)) # 1
            else (cond_Zopp s (Zpos m)) # (Z.to_pos (2 ^ (- e))))
  | _ => None
  end.

(** A [digitpart] of Python's numeric grammar: a digit, then digits each
    optionally preceded by one underscore.  Returns the digits read and the
    rest of the text; no digit is read when the text does not start with
    one. *)
Fixpoint scan_digits (s : string) : list ascii * string :=
  match s with
  | EmptyString => ([], s)
  | String c r =>
      if is_digit c then
        let cont :=
          match r with
          | String u ((String d _) as r2) =>
              if Ascii.eqb u "_" && is_digit d then r2 else r
          | _ => r
          end in
        let (ds, rest) := scan_digits cont in (c :: ds, rest)
      else ([], s)
  end.

Definition digits_value (ds : list ascii) : Z :=
  fold_left (fun acc c => acc * 10 + digit_val c) ds 0.

Definition parse_sign (s : string) : bool * string :=
  match s with
  | String c r =>
      if Ascii.eqb c "-" then (true, r)
      else if Ascii.eqb c "+" then (false, r)
      else (false, s)
  | EmptyString => (false, s)
  end.

(** The optional exponent that ends a float literal. *)
Definition parse_exponent (s : string) : option Z :=
  match s with
  | EmptyString => Some 0
  | String c r =>
      if Ascii.eqb c "e" || Ascii.eqb c "E" then
        let (neg, r1) := parse_sign r in
        match scan_digits r1 with
        | ((_ :: _) as ds, EmptyString) => Some (cond_Zopp neg (digits_value ds))
        | _ => None
        end
      else None
  end.

(** [[digitpart] "." digitpart | digitpart ["."]], then the exponent:
    the decimal mantissa and the power of ten. *)
Definition parse_decimal (s : string) : option (Z * Z) :=
  let (ip, r1) := scan_digits s in
  let integral :=
    match ip with
    | [] => None
    | _ => option_map (fun e => (digits_value ip, e)) (parse_exponent r1)
    end in
  match r1 with
  | String c r2 =>
      if Ascii.eqb c "." then
        let (fp, r3) := scan_digits r2 in
        match (ip ++ fp)%list with
        | [] => None
        | ds =>
            option_map
              (fun e => (digits_value ds, e - Z.of_nat (List.length fp)))
              (parse_exponent r3)
        end
      else integral
  | EmptyString => integral
  end.

(** [float(s)] for a [str]; [None] stands for [ValueError]. *)
Definition float_of_str (s : string) : option spec_float :=
  let (neg, r) := parse_sign (strip s) in
  if mem (lower r) ["inf"; "infinity"] then Some (S754_infinity neg)
  else if String.eqb (lower r) "nan" then Some S754_nan
  else option_map (fun me => float_of_decimal neg (fst me) (snd me))
                  (parse_decimal r).

(** [int(s)] for a [str] in base ten; [None] stands for [ValueError].
    The interpreter's configurable limit on the number of digits is not
    modelled. *)
Definition int_of_str (s : string) : option Z :=
  let (neg, r) := parse_sign (strip s) in
  match scan_digits r with
  | ((_ :: _) as ds, EmptyString) => Some (cond_Zopp neg (digits_value ds))
  | _ => None
  end.

(** *** Values

    The values the library handles.  A [dict] is an association list in
    insertion order with string keys, the only keys the library uses. *)
#[local] Set Warnings "-register-all".
Inductive pyval : Type :=
| PNone
| PBool (b : bool)
| PInt (z : Z)
| PFloat (f : spec_float)
| PStr (s : string)
| PList (l : list pyval)
| PDict (d : list (string * pyval)).

Definition pydict : Type := list (string * pyval).

(** [d.get(k)] *)
Fixpoint dict_get {A : Type} (k : string) (d : list (string * A)) : option A :=
  match d with
  | [] => None
  | (k', v) :: r => if String.eqb k k' then Some v else dict_get k r
  end.

(** [k in d] *)
Definition dict_mem {A : Type} (k : string) (d : list (string * A)) : bool :=
  match dict_get k d with
  | Some _ => true
  | None => false
  end.

(** [d[k] = v]: a key already present keeps its place, a new key goes to
    the end. *)
Fixpoint dict_set {A : Type} (k : string) (v : A) (d : list (string * A))
  : list (string * A) :=
  match d with
  | [] => [(k, v)]
  | (k', v') :: r =>
      if String.eqb k k' then (k', v) :: r else (k', v') :: dict_set k v r
  end.

Definition dict_keys {A : Type} (d : list (string * A)) : list string :=
  map fst d.

(** [{k1: v1, ...}] built by successive assignments. *)
Definition dict_of_pairs {A : Type} (l : list (string * A))
  : list (string * A) :=
  fold_left (fun d kv => dict_set (fst kv) (snd kv) d) l [].

(** [d[k]] on an arbitrary value: [KeyError] for a missing key; a value
    that is not a [dict] has no item under a string key. *)
Definition getitem (v : pyval) (k : string) : result pyval :=
  match v with
  | PDict d =>
      match dict_get k d with
      | Some x => Ok x
      | None => Raise (KeyError k)
      end
  | _ => Raise TypeError
  end.

(** The assignment [d[k1]...[kn][k] = v] on the tree of dictionaries
    rooted at [d]: the inner dictionaries are fetched, which raises
    [KeyError] at a missing key and [TypeError] at a value that is not a
    [dict], and the last one receives the item. *)
Fixpoint assign (keys : list string) (k : string) (v : pyval) (d : pydict)
  : result pydict :=
  match keys with
  | [] => Ok (dict_set k v d)
  | k1 :: rest =>
      match dict_get k1 d with
      | None => Raise (KeyError k1)
      | Some (PDict d1) =>
          rbind (assign rest k v d1) (fun d1' => Ok (dict_set k1 (PDict d1') d))
      | Some _ => Raise TypeError
      end
  end.

(** Truth value of an object, as [not x] and [if x] test it. *)
Definition truthy (v : pyval) : bool :=
  match v with
  | PNone => false
  | PBool b => b
  | PInt z => negb (z =? 0)
  | PFloat (S754_zero _) => false
  | PFloat _ => true
  | PStr EmptyString => false
  | PStr _ => true
  | PList [] => false
  | PList _ => true
  | PDict [] => false
  | PDict _ => true
  end.

(** Decimal text of an integer. *)
Definition str_of_Z (z : Z) : string :=
  DecimalString.NilZero.string_of_int (Z.to_int z).

(** [str(v)] for the values whose text can be one of the boolean literals.
    The text of a [float] always has a digit together with a point or an
    exponent, or is [inf], [-inf] or [nan]; that of a [list] or a [dict]
    starts with a bracket; neither is ever one of the six words
    [ConvertBoolean] looks for, and they are left out ([None]). *)
Definition str (v : pyval) : option string :=
  match v with
  | PNone => Some "None"
  | PBool true => Some "True"
  | PBool false => Some "False"
  | PInt z => Some (str_of_Z z)
  | PStr s => Some s
  | PFloat _ | PList _ | PDict _ => None
  end.

(** [float(v)] *)
Definition float (v : pyval) : result spec_float :=
  match v with
  | PBool b => Ok (if b then binary_normalize prec emax 1 0 false
                   else S754_zero false)
  | PInt z => float_of_int z
  | PFloat f => Ok f
  | PStr s =>
      match float_of_str s with
      | Some f => Ok f
      | None => Raise ValueError
      end
  | PNone | PList _ | PDict _ => Raise TypeError
  end.

(** [int(v)] *)
Definition int (v : pyval) : result Z :=
  match v with
  | PBool b => Ok (if b then 1 else 0)
  | PInt z => Ok z
  | PFloat f => int_of_float f
  | PStr s =>
      match int_of_str s with
      | Some z => Ok z
      | None => Raise ValueError
      end
  | PNone | PList _ | PDict _ => Raise TypeError
  end.

(** [isinstance(v, str)] *)
Definition is_str (v : pyval) : bool :=
  match v with
  | PStr _ => true
  | _ => false
  end.

(** [isinstance(v, str) and '.' in v] *)
Definition str_with_point (v : pyval) : bool :=
  match v with
  | PStr s => contains "." s
  | _ => false
  end.

(** [v == s] for a string constant [s] *)
Definition eq_str (v : pyval) (s : string) : bool :=
  match v with
  | PStr t => String.eqb t s
  | _ => false
  end.

End Py.

(** ** Methods that mutate their object

    A method is a function from the object as the call finds it to the
    outcome of the call and the object as the call leaves it.  An
    exception does not undo the assignments made before it. *)

Module Eff.
Import Py.

Definition M (S A : Type) : Type := S -> result A * S.

Definition ret {S A : Type} (a : A) : M S A := fun s => (Ok a, s).

Definition raise {S A : Type} (e : exn) : M S A := fun s => (Raise e, s).

Definition bind {S A B : Type} (m : M S A) (k : A -> M S B) : M S B :=
  fun s =>
    match m s with
    | (Ok a, s') => k a s'
    | (Raise e, s') => (Raise e, s')
    end.

(** A computation without effect on the object. *)
Definition lift {S A : Type} (r : result A) : M S A := fun s => (r, s).

Definition get {S : Type} : M S S := fun s => (Ok s, s).

Definition put {S : Type} (s : S) : M S unit := fun _ => (Ok tt, s).

(** [for x in l: body(x)] *)
Fixpoint for_each {S A : Type} (l : list A) (body : A -> M S unit) : M S unit :=
  match l with
  | [] => ret tt
  | x :: r => bind (body x) (fun _ => for_each r body)
  end.

(** A loop that carries a local variable [acc] from one round to the next. *)
Fixpoint for_fold {S A B : Type} (l : list A) (acc : B) (body : B -> A -> M S B)
  : M S B :=
  match l with
  | [] => ret acc
  | x :: r => bind (body acc x) (fun acc' => for_fold r acc' body)
  end.

(** [try: r  except C: raise e] for the exceptions [C] selects. *)
Definition reraise {A : Type} (C : exn -> bool) (e : exn) (r : result A)
  : result A :=
  match r with
  | Raise x => if C x then Raise e else Raise x
  | Ok a => Ok a
  end.

End Eff.

Declare Scope eff_scope.
Delimit Scope eff_scope with eff.
Notation "x <- m ;; k" := (Eff.bind m (fun x => k))
  (at level 61, m at next level, right associativity) : eff_scope.
Notation "m ;; k" := (Eff.bind m (fun _ => k))
  (at level 61, right associativity) : eff_scope.

(** ** [monitor/lib/config.py] *)

Module config.
Import Py Eff.

(** The type hints and section names, class attributes of [Config]. *)
Definition REQUIRED : bool := true.
Definition OPTIONAL : bool := false.

Definition ARRAY_TYPE : string := "array".
Definition BOOL_TYPE : string := "bool".
Definition FLOAT_TYPE : string := "float".
Definition HASH_TYPE : string := "hash".
Definition INT_TYPE : string := "int".
Definition STRING_TYPE : string := "string".

Definition GLOBAL_SECTION : string := "global".
Definition INFLUXDB_SECTION : string := "influxdb".
Definition SUPPORTED_DATABASES : list string := [INFLUXDB_SECTION].
Definition DATABASE_FIELDS : list (string * list (string * string)) :=
  [(INFLUXDB_SECTION,
    [("database", STRING_TYPE);
     ("port", INT_TYPE);
     ("server", STRING_TYPE);
     ("ssl", BOOL_TYPE);
     ("verify", BOOL_TYPE);
     ("org", STRING_TYPE);
     ("token", STRING_TYPE);
     ("bucket", STRING_TYPE)])].
Definition ENTRY_FIELDS : list (string * string * bool) :=
  [("measurements", ARRAY_TYPE, REQUIRED);
   ("tags", HASH_TYPE, OPTIONAL)].

(** The message a [MessageError] subclass carries when raised bare. *)
Definition ConversionFailure_message : string :=
  "Invalid type conversion requested".

Definition is_ConversionFailure (e : exn) : bool :=
  match e with
  | ConversionFailure _ => true
  | _ => false
  end.

(** [ConvertBoolean]: [Some true], [Some false], or [None] for a value
    that is not a boolean word. *)
Definition ConvertBoolean (value : pyval) : option bool :=
  match str value with
  | Some s =>
      let value := lower s in
      if mem value ["yes"; "1"; "true"] then Some true
      else if mem value ["no"; "0"; "false"] then Some false
      else None
  | None => None
  end.

(** [value.split()]: only text has the method. *)
Definition split_method (value : pyval) : result (list string) :=
  match value with
  | PStr s => Ok (split s)
  | _ => Raise AttributeError
  end.

(** The loop of [ConvertHashType] over the options still to read. *)
Fixpoint ConvertHashType_loop (value : string) (options : list string)
  (collection : pydict) : result pydict :=
  match options with
  | [] => Ok collection
  | option :: rest =>
      match split_on "=" option with
      | [k; v] =>
          ConvertHashType_loop value rest (dict_set k (PStr (strip v)) collection)
      | _ =>
          Raise (ConversionFailure
                   ("Invalid option '" ++ option ++ "' for key-value pair: "
                    ++ value))
      end
  end.

Definition ConvertHashType (value : pyval) : result pyval :=
  match value with
  | PStr s => rmap PDict (ConvertHashType_loop s (split s) [])
  | _ => Raise AttributeError
  end.

(** The body of the [try] in [ConvertValue]. *)
Definition ConvertValue_try (value hint : pyval) : result pyval :=
  match hint with
  | PNone =>
      match ConvertBoolean value with
      | Some b => Ok (PBool b)
      | None =>
          rbind (float value) (fun v =>
          if str_with_point value then Ok (PFloat v)
          else rmap PInt (int (PFloat v)))
      end
  | _ =>
      if eq_str hint ARRAY_TYPE then
        rmap (fun l => PList (map PStr l)) (split_method value)
      else if eq_str hint HASH_TYPE then ConvertHashType value
      else if eq_str hint INT_TYPE then
        if str_with_point value
        then rbind (float value) (fun f => rmap PInt (int (PFloat f)))
        else rmap PInt (int value)
      else if eq_str hint BOOL_TYPE then
        Ok (match ConvertBoolean value with
            | Some b => PBool b
            | None => PNone
            end)
      else if eq_str hint FLOAT_TYPE then rmap PFloat (float value)
      else if eq_str hint STRING_TYPE then Ok value
      else Raise (ConversionFailure ConversionFailure_message)
  end.

(** [ConvertValue(value, hint=None)]; no hint is [PNone]. *)
Definition ConvertValue (value hint : pyval) : result pyval :=
  let value :=
    match value with
    | PStr s => PStr (strip s)
    | _ => value
    end in
  match ConvertValue_try value hint with
  | Raise TypeError | Raise ValueError =>
      match hint with
      | PNone =>
          match ConvertBoolean value with
          | None => Ok value
          | Some b => Ok (PBool b)
          end
      | _ =>
          Raise (ConversionFailure
                   "Failed to convert the given value to the requested type")
      end
  | r => r
  end.

Definition DefaultValue (hint : pyval) : result pyval :=
  if eq_str hint ARRAY_TYPE then Ok (PList [])
  else if eq_str hint HASH_TYPE then Ok (PDict [])
  else if eq_str hint INT_TYPE then Ok (PInt 0)
  else if eq_str hint BOOL_TYPE then Ok (PBool false)
  else if eq_str hint FLOAT_TYPE then Ok (PFloat (S754_zero false))
  else if eq_str hint STRING_TYPE then Ok (PStr "")
  else Raise (ConversionFailure ConversionFailure_message).

(** *** The configuration file

    [configparser.ConfigParser] after [read]: the sections in file order,
    each with its options (names already in lower case, as the parser
    stores them) and their values.  The file has no [DEFAULT] section and
    its values no interpolation marks. *)
Definition ini : Type := list (string * list (string * string)).

(** What is found at a path: nothing that is a regular file, a file the
    parser rejects, or a file it reads. *)
Inductive file : Type :=
| NoFile
| Malformed
| Ini (parser : ini).

Definition has_section (parser : ini) (section : string) : bool :=
  dict_mem section parser.

Definition has_option (parser : ini) (section option : string) : bool :=
  match dict_get section parser with
  | Some opts => dict_mem (lower option) opts
  | None => false
  end.

(** [parser.get(section, option)]; a missing section or option raises a
    [configparser] error. *)
Definition parser_get (parser : ini) (section option : string)
  : result string :=
  match dict_get section parser with
  | Some opts =>
      match dict_get (lower option) opts with
      | Some v => Ok v
      | None => Raise ConfigParserError
      end
  | None => Raise ConfigParserError
  end.

Definition parser_options (parser : ini) (section : string)
  : result (list string) :=
  match dict_get section parser with
  | Some opts => Ok (dict_keys opts)
  | None => Raise ConfigParserError
  end.

(** *** The [Config] object *)
Record Config : Type := mkConfig {
  path : option string;
  root : string;
  config : pydict;
  database : pyval
}.

(** [Config(path, root)] *)
Definition init (path : option string) (root : string) : Config :=
  mkConfig path root [] PNone.

Definition set_database (v : pyval) : M Config unit :=
  fun self => (Ok tt, mkConfig (path self) (root self) (config self) v).

(** [self.config[k1]...[kn][k] = v] *)
Definition cfg_assign (keys : list string) (k : string) (v : pyval)
  : M Config unit :=
  fun self =>
    match assign keys k v (config self) with
    | Ok d => (Ok tt, mkConfig (path self) (root self) d (database self))
    | Raise e => (Raise e, self)
    end.

(** [self.config[k1]...[kn]] *)
Definition cfg_read (keys : list string) : M Config pyval :=
  fun self =>
    (fold_left (fun r k => rbind r (fun v => getitem v k)) keys
               (Ok (PDict (config self))), self).

(** [d[key]] for a key that is any value: only text is ever a key of the
    dictionaries of this library, another hashable key is absent, and a
    [list] or a [dict] cannot be hashed. *)
Definition getitem_val (v key : pyval) : result pyval :=
  match key with
  | PStr k => getitem v k
  | PList _ | PDict _ => Raise TypeError
  | _ =>
      match v with
      | PDict _ => Raise (KeyError "")
      | _ => Raise TypeError
      end
  end.

(** [key in d] for a dictionary [d]; the other containers do not occur
    where the library tests membership and are refused. *)
Definition key_in (key v : pyval) : result bool :=
  match v with
  | PDict d =>
      match key with
      | PStr k => Ok (dict_mem k d)
      | PList _ | PDict _ => Raise TypeError
      | _ => Ok false
      end
  | _ => Raise TypeError
  end.

(** [d.get(key, default)]; only a [dict] has the method. *)
Definition get_method (v key default : pyval) : result pyval :=
  match v with
  | PDict d =>
      match key with
      | PStr k =>
          match dict_get k d with
          | Some x => Ok x
          | None => Ok default
          end
      | PList _ | PDict _ => Raise TypeError
      | _ => Ok default
      end
  | _ => Raise AttributeError
  end.

(** The names a [for] loop draws from a list of names or from the keys of
    a dictionary; the library loops over nothing else. *)
Fixpoint names_of (l : list pyval) : option (list string) :=
  match l with
  | [] => Some []
  | PStr s :: r => option_map (cons s) (names_of r)
  | _ => None
  end.

Definition iter_names (v : pyval) : result (list string) :=
  match v with
  | PList l =>
      match names_of l with
      | Some ns => Ok ns
      | None => Raise TypeError
      end
  | PDict d => Ok (dict_keys d)
  | _ => Raise TypeError
  end.

Definition IsLoaded (self : Config) : bool :=
  match path self with
  | None => true
  | Some _ => (0 <? Z.of_nat (List.length (config self)))
  end.

Fixpoint RequiredFields (parser : ini) (section : string) (fields : list string)
  : result unit :=
  match fields with
  | [] => Ok tt
  | field :: rest =>
      if negb (has_option parser section field) then
        Raise (InvalidConfigError
                 ("Section '" ++ section ++ "' missing required field '"
                  ++ field ++ "'"))
      else RequiredFields parser section rest
  end.

Definition OptionalFields (parser : ini) (section : string)
  (fields : list string) : result unit := Ok tt.

Definition ParseOption (parser : ini) (section option : string)
  : result string :=
  if negb (has_option parser section option) then
    Raise (ConfigError ("Option '" ++ option ++ "' does not exist in section '"
                        ++ section ++ "'"))
  else
    rbind (parser_get parser section option) (fun value =>
    if mem value [BOOL_TYPE; FLOAT_TYPE; INT_TYPE; STRING_TYPE] then Ok value
    else Raise (InvalidConfigError
                  ("Invalid type '" ++ value ++ "' for option '" ++ option
                   ++ "'"))).

(** *** [Config.Load] *)

Local Open Scope eff_scope.

Definition invalid_field (field hint : string) : exn :=
  InvalidConfigError
    ("Invalid field '" ++ field ++ "' expected type '" ++ hint ++ "'").

(** One round of the loop over [DATABASE_FIELDS[self.database]]. *)
Definition load_database_field (parser : ini) (db : string)
  (fh : string * string) : M Config unit :=
  let (field, hint) := fh in
  if has_option parser db field then
    raw <- lift (parser_get parser db field) ;;
    v <- lift (reraise is_ConversionFailure (invalid_field field hint)
                 (ConvertValue (PStr raw) (PStr hint))) ;;
    cfg_assign [db] field v
  else ret tt.

(** One round of the loop over [ENTRY_FIELDS] for the section [entry]. *)
Definition load_entry_field (parser : ini) (rootk entry : string)
  (fhr : string * string * bool) : M Config unit :=
  let '(field, hint, required) := fhr in
  if has_option parser entry field then
    raw <- lift (parser_get parser entry field) ;;
    v <- lift (reraise is_ConversionFailure (invalid_field field hint)
                 (ConvertValue (PStr raw) (PStr hint))) ;;
    cfg_assign [rootk; entry] field v
  else if required then
    raise (InvalidConfigError
             ("Section '" ++ entry ++ "' missing required field '" ++ field
              ++ "'"))
  else
    d <- lift (DefaultValue (PStr hint)) ;;
    cfg_assign [rootk; entry] field d.

(** One round of the loop over the options of the section [entry] that
    are not declared fields: the value is converted without a hint. *)
Definition load_entry_option (parser : ini) (rootk entry option : string)
  : M Config unit :=
  e <- cfg_read [rootk; entry] ;;
  present <- lift (key_in (PStr option) e) ;;
  if present then ret tt
  else
    raw <- lift (parser_get parser entry option) ;;
    v <- lift (reraise is_ConversionFailure
                 (InvalidConfigError
                    ("Invalid field '" ++ option
                     ++ "' unable to determine type"))
                 (ConvertValue (PStr raw) PNone)) ;;
    cfg_assign [rootk; entry] option v.

(** The local dictionary [measurements]: measurement name to the list of
    its field names. *)
Definition mtable : Type := list (string * list string).

(** [if measurement not in measurements: measurements[measurement] = []] *)
Definition note_measurement (measurements : mtable) (measurement : string)
  : mtable :=
  if negb (dict_mem measurement measurements)
  then dict_set measurement [] measurements
  else measurements.

(** The body of the loop over the entries of the root. *)
Definition load_entry (parser : ini) (rootk : string) (measurements : mtable)
  (entry : string) : M Config mtable :=
  lift (RequiredFields parser entry
          (map (fun x => fst (fst x))
               (filter (fun x => snd x) ENTRY_FIELDS))) ;;
  lift (OptionalFields parser entry
          (map (fun x => fst (fst x))
               (filter (fun x => negb (snd x)) ENTRY_FIELDS))) ;;
  cfg_assign [rootk] entry (PDict [("device", PStr entry)]) ;;
  for_each ENTRY_FIELDS (load_entry_field parser rootk entry) ;;
  options <- lift (parser_options parser entry) ;;
  for_each options (load_entry_option parser rootk entry) ;;
  ms <- cfg_read [rootk; entry; "measurements"] ;;
  names <- lift (iter_names ms) ;;
  ret (fold_left note_measurement names measurements).

(** One round of the loop over the options of a measurement section.  The
    test for a repeated field looks up the literal key ['option']. *)
Definition load_measurement_option (parser : ini) (measurement : string)
  (measurements : mtable) (option : string) : M Config mtable :=
  known <- cfg_read ["measurements"] ;;
  present <- lift (key_in (PStr measurement) known) ;;
  (if negb present
   then cfg_assign ["measurements"] measurement (PDict [])
   else ret tt) ;;
  fields <- cfg_read ["measurements"; measurement] ;;
  dup <- lift (key_in (PStr "option") fields) ;;
  if negb dup then
    hint <- lift (ParseOption parser measurement option) ;;
    cfg_assign ["measurements"; measurement] option (PStr hint) ;;
    match dict_get measurement measurements with
    | Some l => ret (dict_set measurement (l ++ [option])%list measurements)
    | None => raise (KeyError measurement)
    end
  else
    raise (InvalidConfigError
             ("Duplicate measurement definition for '" ++ option
              ++ "' in section '" ++ measurement ++ "'")).

(** The body of the loop over the measurement names collected. *)
Definition load_measurement (parser : ini) (measurements : mtable)
  (measurement : string) : M Config mtable :=
  if negb (has_section parser measurement) then
    raise (InvalidConfigError
             ("Unknown measurement '" ++ measurement ++ "' in config"))
  else
    options <- lift (parser_options parser measurement) ;;
    for_fold options measurements (load_measurement_option parser measurement).

(** The inner loop of the last pass: the [measurementMap] of one entry. *)
Fixpoint measurement_map (measurements : mtable) (entry : string)
  (names : list string) (measurementMap : pydict) : result pydict :=
  match names with
  | [] => Ok measurementMap
  | measurement :: rest =>
      match dict_get measurement measurements with
      | None =>
          Raise (InvalidConfigError
                   ("Unknown measurement '" ++ measurement ++ "' in entry '"
                    ++ entry ++ "'"))
      | Some l =>
          measurement_map measurements entry rest
            (dict_set measurement (PList (map PStr l)) measurementMap)
      end
  end.

Definition resolve_entry (rootk : string) (measurements : mtable)
  (entry : string) : M Config unit :=
  ms <- cfg_read [rootk; entry; "measurements"] ;;
  names <- lift (iter_names ms) ;;
  measurementMap <- lift (measurement_map measurements entry names []) ;;
  cfg_assign [rootk; entry] "measurements" (PDict measurementMap).

(** [Load] from the assignment [self.config[self.database] = {}] on. *)
Definition Load_schema (parser : ini) (rootk db : string) : M Config unit :=
  cfg_assign [] db (PDict []) ;;
  fields <- lift (match dict_get db DATABASE_FIELDS with
                  | Some l => Ok l
                  | None => Raise (KeyError db)
                  end) ;;
  for_each fields (load_database_field parser db) ;;
  rootv <- lift (parser_get parser GLOBAL_SECTION rootk) ;;
  if negb (truthy (PStr rootv)) then
    raise (InvalidConfigError ("Missing config for root '" ++ rootk))
  else
    cfg_assign [] "measurements" (PDict []) ;;
    cfg_assign [] rootk (PDict []) ;;
    for_each (split rootv) (fun field => cfg_assign [rootk] field (PDict [])) ;;
    devs <- cfg_read [rootk] ;;
    devices <- lift (iter_names devs) ;;
    if (List.length devices =? 0)%nat then
      raise (InvalidConfigError
               ("Root element '" ++ rootk ++ "' has no entries"))
    else
      for_each devices (fun device =>
        if negb (has_section parser device) then
          raise (InvalidConfigError
                   ("Missing device configuration '" ++ device ++ "'"))
        else ret tt) ;;
      measurements <- for_fold devices [] (load_entry parser rootk) ;;
      measurements <- for_fold (dict_keys measurements) measurements
                               (load_measurement parser) ;;
      entries <- cfg_read [rootk] ;;
      names <- lift (iter_names entries) ;;
      for_each names (resolve_entry rootk measurements).

(** [Load] once the file is parsed, up to the check of the backend. *)
Definition Load_parsed (parser : ini) : M Config unit :=
  if negb (has_section parser GLOBAL_SECTION) then
    raise (InvalidConfigError "No global section")
  else
    self <- get ;;
    lift (RequiredFields parser GLOBAL_SECTION ["database"; root self]) ;;
    db <- lift (parser_get parser GLOBAL_SECTION "database") ;;
    set_database (PStr db) ;;
    if negb (truthy (PStr db)) || negb (mem db SUPPORTED_DATABASES) then
      raise (InvalidConfigError "Invalid or unsupported database value")
    else Load_schema parser (root self) db.

Section Disk.

(** What the file system holds at each path. *)
Variable disk : string -> file.

(** [Load].  Without a path [IsLoaded] answers [True] and the first line
    returns; the branch for a missing path below is what
    [os.path.isfile(None)] would do and is never reached. *)
Definition Load : M Config unit :=
  fun self =>
    if IsLoaded self then (Ok tt, self)
    else
      match path self with
      | None => (Raise TypeError, self)
      | Some p =>
          match disk p with
          | NoFile => (Raise (ConfigError "Config file does not exist"), self)
          | Malformed => (Raise ConfigParserError, self)
          | Ini parser => Load_parsed parser self
          end
      end.

(** [if not self.IsLoaded(): self.Load()] *)
Definition ensure_loaded : M Config unit :=
  self <- get ;;
  if negb (IsLoaded self) then Load else ret tt.

Definition GetDatabase : M Config (pyval * pyval) :=
  ensure_loaded ;;
  self <- get ;;
  cfg <- lift (getitem_val (PDict (config self)) (database self)) ;;
  ret (database self, cfg).

(** [GetField].  The messages name the measurement and the field when
    they are text, the only case the pipeline produces. *)
Definition GetField (measurement field : pyval) : M Config pyval :=
  match measurement, field with
  | PNone, _ | _, PNone => raise (KeyError "Unknown measurement or field")
  | _, _ =>
      ensure_loaded ;;
      known <- cfg_read ["measurements"] ;;
      present <- lift (key_in measurement known) ;;
      if negb present then
        raise (KeyError ("Unknown measurement '"
                         ++ match measurement with PStr m => m | _ => "" end
                         ++ "'"))
      else
        fields <- lift (getitem_val known measurement) ;;
        hint <- lift (get_method fields field PNone) ;;
        if negb (truthy hint) then
          raise (KeyError ("Unknown field '"
                           ++ match field with PStr f => f | _ => "" end
                           ++ "' on measurement '"
                           ++ match measurement with PStr m => m | _ => "" end
                           ++ "'"))
        else ret hint
  end.

Definition GetRoot : M Config pyval :=
  ensure_loaded ;;
  self <- get ;;
  match path self with
  | None => ret (PDict [])
  | Some _ => cfg_read [root self]
  end.

Definition GetTags (entity : pyval) : M Config pyval :=
  match entity with
  | PNone => raise (KeyError "Unknown entity")
  | _ =>
      ensure_loaded ;;
      self <- get ;;
      match path self with
      | None => ret (PDict [])
      | Some _ =>
          entries <- cfg_read [root self] ;;
          e <- lift (getitem_val entries entity) ;;
          lift (get_method e (PStr "tags") (PList []))
      end
  end.

Definition Reload : M Config unit :=
  (fun self => (Ok tt, mkConfig (path self) (root self) [] PNone)) ;;
  Load.

End Disk.

End config.

(** ** [monitor/lib/database.py] *)

Module database.
Import Py Eff.
Local Open Scope eff_scope.

(** A point of [influxdb_client], as [MetricPipeline.Flush] builds it. *)
Record Point : Type := mkPoint {
  point_measurement : pyval;
  point_tags : pydict;
  point_fields : pydict;
  point_time : Z
}.

(** The calls made into the [influxdb_client] library. *)
Inductive call : Type :=
| InfluxDBClient (url_protocol url_server url_port token org : pyval)
| write_api
| query_api
| writer_write (bucket : pyval) (record : list Point)
| writer_flush
| client_close.

(** The lines handed to the logger, by the statement that writes them. *)
Inductive logline : Type :=
| InvalidMetricSent
| InvalidMetric (measurement : pyval)
| UnableToConvert (measurement value : pyval)
| FailedToConnect
| NetworkError (e : exn)
| ServerSideHTTPError (statusCode : Z)
| UnexpectedHTTPError (statusCode : Z)
| UnexpectedRedirects
| UnexpectedRequestError (e : exn)
| UnhandledError (e : exn)
| ReloadingPipeline
| ErrorDuringReload (e : exn)
| ErrorDuringShutdown (e : exn)
| FailedToInitiate (e : exn)
| FailedToClose (e : exn).

(** What lies outside the objects: the library calls made so far, oldest
    first, and the lines the logger has received. *)
Record Outside : Type := mkOutside {
  calls : list call;
  log : list logline
}.

Record InfluxDatabase : Type := mkInfluxDatabase {
  config : pyval;
  precision : string;
  logger : bool;
  client : bool;
  writer : bool;
  query : bool
}.

Definition is_KeyError (e : exn) : option string :=
  match e with
  | KeyError k => Some k
  | _ => None
  end.

Section World.

(** Whether [influxdb_client] could be imported. *)
Variable INFLUXDB_SUPPORTED : bool.

(** How the library answers a call, given the calls made before it:
    it returns, or raises the exception given. *)
Variable library : list call -> call -> option exn.

Definition Db : Type := (InfluxDatabase * Outside)%type.

Definition invoke (c : call) : M Db unit :=
  fun s =>
    let out := mkOutside (calls (snd s) ++ [c])%list (log (snd s)) in
    match library (calls (snd s)) c with
    | Some e => (Raise e, (fst s, out))
    | None => (Ok tt, (fst s, out))
    end.

(** [if self.logger: self.logger.<level>(line)] *)
Definition emit (l : logline) : M Db unit :=
  fun s =>
    if logger (fst s)
    then (Ok tt, (fst s, mkOutside (calls (snd s)) (log (snd s) ++ [l])%list))
    else (Ok tt, s).

Definition update (f : InfluxDatabase -> InfluxDatabase) : M Db unit :=
  fun s => (Ok tt, (f (fst s), snd s)).

Definition not_installed : exn := RuntimeError "InfluxDB is not installed".

(** [InfluxDatabase(config, precision, logger)] *)
Definition init (config : pyval) (precision : string) (logger : bool)
  : result InfluxDatabase :=
  if negb INFLUXDB_SUPPORTED then Raise not_installed
  else Ok (mkInfluxDatabase config precision logger false false false).

(** The [try] of [Initialize]: the arguments are read from the
    configuration in the order Python evaluates them, then the client is
    built. *)
Definition Initialize_try : M Db unit :=
  s <- get ;;
  let cfg := config (fst s) in
  protocol <- lift (config.get_method cfg (PStr "protocol") (PStr "https")) ;;
  server <- lift (getitem cfg "server") ;;
  port <- lift (config.get_method cfg (PStr "port") (PInt 443)) ;;
  token <- lift (getitem cfg "token") ;;
  org <- lift (getitem cfg "org") ;;
  invoke (InfluxDBClient protocol server port token org) ;;
  update (fun db => mkInfluxDatabase (config db) (precision db) (logger db)
                      true (writer db) (query db)).

Definition Initialize : M Db bool :=
  if negb INFLUXDB_SUPPORTED then raise not_installed
  else
    fun s =>
      match Initialize_try s with
      | (Ok _, s1) =>
          (invoke write_api ;;
           update (fun db => mkInfluxDatabase (config db) (precision db)
                               (logger db) (client db) true (query db)) ;;
           invoke query_api ;;
           update (fun db => mkInfluxDatabase (config db) (precision db)
                               (logger db) (client db) (writer db) true) ;;
           ret true) s1
      | (Raise e, s1) =>
          match is_KeyError e with
          | Some k =>
              (Raise (RuntimeError ("Missing configuration option '" ++ k
                                    ++ "'")), s1)
          | None =>
              (emit (FailedToInitiate e) ;;
               update (fun db => mkInfluxDatabase (config db) (precision db)
                                   (logger db) false (writer db) (query db)) ;;
               ret false) s1
          end
      end.

(** [not self.writer and not self.Initialize()] *)
Definition no_writer : M Db bool :=
  s <- get ;;
  if negb (writer (fst s)) then (ok <- Initialize ;; ret (negb ok))
  else ret false.

Definition Write (metrics : list Point) : M Db bool :=
  if negb INFLUXDB_SUPPORTED then raise not_installed
  else
    missing <- no_writer ;;
    if missing then ret false
    else
      s <- get ;;
      bucket <- lift (getitem (config (fst s)) "bucket") ;;
      invoke (writer_write bucket metrics) ;;
      ret true.

Definition Flush : M Db unit :=
  if negb INFLUXDB_SUPPORTED then raise not_installed
  else
    missing <- no_writer ;;
    if missing then ret tt else invoke writer_flush.

Definition Close : M Db unit :=
  if negb INFLUXDB_SUPPORTED then raise not_installed
  else
    s <- get ;;
    if client (fst s) then
      fun s =>
        match invoke client_close s with
        | (Raise e, s1) => emit (FailedToClose e) s1
        | r => r
        end
    else ret tt.

End World.

End database.

(** ** [monitor/lib/metrics.py] *)

Module metrics.
Import Py Eff.
Local Open Scope eff_scope.

(** One entry of [Metric.fields]: [{'original': ..., 'clean': ...}]. *)
Record field : Type := mkfield {
  original : pyval;
  clean : pyval
}.

(** A [Metric]; the time stamp is in milliseconds since the epoch. *)
Record Metric : Type := mkMetric {
  entity : pyval;
  timestamp : Z;
  tags : pydict;
  measurement : pyval;
  fields : list (string * field)
}.

(** [Metric(entity, measurement, tags)] created at time [now]. *)
Definition Metric_init (now : Z) (entity measurement : pyval)
  (tags : option pydict) : Metric :=
  mkMetric entity now
           (match tags with
            | Some t => t
            | None => []
            end)
           measurement [].

Definition AddField (name : string) (value : pyval) (self : Metric) : Metric :=
  mkMetric (entity self) (timestamp self) (tags self) (measurement self)
           (dict_set name (mkfield value PNone) (fields self)).

(** [Metric.Sanitize] on a measurement name that is text: the loop over
    [[' ', '.']] replaces first the spaces, then the points. *)
Definition Sanitize (measurement : string) : string :=
  fold_left (fun measurement c => replace c "_" measurement)
            [" "%char; "."%char] measurement.

(** What [Enqueue] may be handed: one object, or a [list] or [set] of
    objects, each a [Metric] or something else. *)
Inductive item : Type :=
| AMetric (metric : Metric)
| NotAMetric.

Inductive argument : Type :=
| Collection (l : list item)
| Single (i : item).

Record MetricPipeline : Type := mkPipeline {
  config : config.Config;
  logger : bool;
  batchSize : Z;
  queue : list Metric;
  database : option database.InfluxDatabase;
  shutdown : bool;
  outside : database.Outside
}.

Definition DEFAULT_BATCH_SIZE : Z := 10.

(** [MetricPipeline(config, batchSize, logger)] *)
Definition init (config : config.Config) (batchSize : Z) (logger : bool)
  (outside : database.Outside) : MetricPipeline :=
  mkPipeline config logger batchSize [] None false outside.

Definition IsEmpty (self : MetricPipeline) : bool :=
  (List.length (queue self) =? 0)%nat.

Definition set_queue (q : list Metric) : M MetricPipeline unit :=
  fun self =>
    (Ok tt, mkPipeline (config self) (logger self) (batchSize self) q
                       (database self) (shutdown self) (outside self)).

Definition set_database (d : option database.InfluxDatabase)
  : M MetricPipeline unit :=
  fun self =>
    (Ok tt, mkPipeline (config self) (logger self) (batchSize self)
                       (queue self) d (shutdown self) (outside self)).

Definition set_config (c : config.Config) : M MetricPipeline unit :=
  fun self =>
    (Ok tt, mkPipeline c (logger self) (batchSize self) (queue self)
                       (database self) (shutdown self) (outside self)).

Definition set_shutdown (b : bool) : M MetricPipeline unit :=
  fun self =>
    (Ok tt, mkPipeline (config self) (logger self) (batchSize self)
                       (queue self) (database self) b (outside self)).

(** [if self.logger: self.logger.<level>(line)] *)
Definition emit (l : database.logline) : M MetricPipeline unit :=
  fun self =>
    if logger self then
      (Ok tt, mkPipeline (config self) (logger self) (batchSize self)
                (queue self) (database self) (shutdown self)
                (database.mkOutside (database.calls (outside self))
                   (database.log (outside self) ++ [l])%list))
    else (Ok tt, self).

(** A method of [self.config] run on the pipeline's schema object. *)
Definition on_config {A : Type} (m : M config.Config A) : M MetricPipeline A :=
  fun self =>
    let (r, c) := m (config self) in
    (r, mkPipeline c (logger self) (batchSize self) (queue self)
                   (database self) (shutdown self) (outside self)).

(** A method of [self.database] run on the pipeline's backend handle;
    [None] has no method. *)
Definition on_database {A : Type}
  (m : M (database.InfluxDatabase * database.Outside) A)
  : M MetricPipeline A :=
  fun self =>
    match database self with
    | None => (Raise AttributeError, self)
    | Some db =>
        let (r, s) := m (db, outside self) in
        (r, mkPipeline (config self) (logger self) (batchSize self)
                       (queue self) (Some (fst s)) (shutdown self) (snd s))
    end.

Section World.

Variable disk : string -> config.file.
Variable INFLUXDB_SUPPORTED : bool.
Variable library : list database.call -> database.call -> option exn.

(** The loop of [Enqueue] over the fields of one metric.  Returns the
    fields as the loop leaves them and the flag [skip]. *)
Fixpoint convert_fields (measurement : pyval) (todo : list (string * field))
  : M MetricPipeline (list (string * field) * bool) :=
  match todo with
  | [] => ret ([], false)
  | (name, f) :: rest =>
      let value := original f in
      hint <- on_config (config.GetField disk measurement (PStr name)) ;;
      match config.ConvertValue value hint with
      | Ok c =>
          r <- convert_fields measurement rest ;;
          ret ((name, mkfield value c) :: fst r, snd r)
      | Raise (KeyError _) =>
          self <- get ;;
          if logger self then
            emit (database.InvalidMetric measurement) ;;
            ret (todo, true)
          else ret (todo, false)
      | Raise (ConversionFailure _) =>
          emit (database.UnableToConvert measurement value) ;;
          d <- lift (config.DefaultValue hint) ;;
          r <- convert_fields measurement rest ;;
          ret ((name, mkfield value d) :: fst r, snd r)
      | Raise e => raise e
      end
  end.

(** The body of the loop of [Enqueue] over the metrics. *)
Definition Enqueue_item (i : item) : M MetricPipeline unit :=
  match i with
  | NotAMetric => emit database.InvalidMetricSent
  | AMetric metric =>
      r <- convert_fields (measurement metric) (fields metric) ;;
      if negb (snd r) then
        self <- get ;;
        set_queue (queue self ++ [mkMetric (entity metric) (timestamp metric)
                                    (tags metric) (measurement metric)
                                    (fst r)])%list
      else ret tt
  end.

Definition Enqueue (metrics : argument) : M MetricPipeline unit :=
  self <- get ;;
  if shutdown self then ret tt
  else
    for_each (match metrics with
              | Collection l => l
              | Single i => [i]
              end) Enqueue_item.

(** The point [Flush] builds from a metric. *)
Definition encode (metric : Metric) : database.Point :=
  database.mkPoint (measurement metric)
    (dict_of_pairs (tags metric))
    (dict_of_pairs (map (fun nf => (fst nf, clean (snd nf))) (fields metric)))
    (timestamp metric).

(** The points of the first [count] metrics of the queue; a metric
    without fields gives none. *)
Definition batch_points (queue : list Metric) (count : Z)
  : list database.Point :=
  map encode
      (filter (fun metric => negb (List.length (fields metric) =? 0)%nat)
              (firstn (Z.to_nat count) queue)).

(** [if not self.database: ...]: the backend is built from the schema's
    database selection. *)
Definition obtain_database : M MetricPipeline unit :=
  self <- get ;;
  match database self with
  | Some _ => ret tt
  | None =>
      r <- on_config (config.GetDatabase disk) ;;
      if eq_str (fst r) "influxdb" then
        db <- lift (database.init INFLUXDB_SUPPORTED (snd r) "ms"
                      (logger self)) ;;
        set_database (Some db)
      else
        raise (RuntimeError
                 ("Unknown database type '"
                  ++ match str (fst r) with Some t => t | None => "" end
                  ++ "'"))
  end.

(** The [try] of [Flush]. *)
Definition send (points : list database.Point) : M MetricPipeline unit :=
  obtain_database ;;
  on_database (database.Write INFLUXDB_SUPPORTED library points) ;;
  on_database (database.Flush INFLUXDB_SUPPORTED library).

(** [except RuntimeError]: the class and the classes that derive from
    it. *)
Definition is_RuntimeError (e : exn) : bool :=
  match e with
  | RuntimeError _ | NotImplementedError | RecursionError => true
  | _ => false
  end.

(** Truth value of a [requests] response: it is false when the status
    code is a client or server error. *)
Definition response_ok (status_code : Z) : bool :=
  negb ((400 <=? status_code) && (status_code <? 600)).

(** The line each [except] clause of [Flush] logs.  The clauses are tried
    in order, so [NewConnectionError], a [ConnectTimeoutError], is taken
    by the first of them.  For an [HTTPError] the status is
    [e.response.status_code if e.response else 0]. *)
Definition report (e : exn) : database.logline :=
  match e with
  | Timeout | ConnectTimeoutError | NewConnectionError =>
      database.FailedToConnect
  | ConnectionError | MaxRetryError | ProtocolError => database.NetworkError e
  | HTTPError response =>
      let statusCode :=
        match response with
        | Some status_code =>
            if response_ok status_code then status_code else 0
        | None => 0
        end in
      if (500 <=? statusCode) && (statusCode <? 600)
      then database.ServerSideHTTPError statusCode
      else database.UnexpectedHTTPError statusCode
  | TooManyRedirects => database.UnexpectedRedirects
  | RequestException => database.UnexpectedRequestError e
  | _ => database.UnhandledError e
  end.

(** The [while] loop of [Flush].  The loop need not end (a batch size
    below one never shortens the queue), so it runs on [fuel]: [None]
    means the rounds allowed were not enough. *)
Fixpoint Flush_loop (fuel : nat) (sent : Z) (self : MetricPipeline)
  : option (result (bool * Z) * MetricPipeline) :=
  match fuel with
  | O => None
  | S fuel' =>
      if IsEmpty self then Some (Ok (true, sent), self)
      else
        let count := Z.min (Z.of_nat (List.length (queue self)))
                           (batchSize self) in
        let points := batch_points (queue self) count in
        match send points self with
        | (Raise e, self1) =>
            if is_RuntimeError e then Some (Raise e, self1)
            else Some (Ok (false, sent), snd (emit (report e) self1))
        | (Ok _, self1) =>
            Flush_loop fuel' (sent + Z.of_nat (List.length points))
              (snd (set_queue (skipn (Z.to_nat count) (queue self1)) self1))
        end
  end.

Definition Flush (fuel : nat) (self : MetricPipeline)
  : option (result (bool * Z) * MetricPipeline) :=
  if shutdown self then Some (Ok (false, 0), self)
  else Flush_loop fuel 0 self.

(** [if self.database: self.database.Close()], then
    [self.database = None]. *)
Definition disconnect : M MetricPipeline unit :=
  self <- get ;;
  match database self with
  | Some _ => on_database (database.Close INFLUXDB_SUPPORTED library)
  | None => ret tt
  end ;;
  set_database None.

Definition Reload (fuel : nat) (new : config.Config) (self : MetricPipeline)
  : option (result unit * MetricPipeline) :=
  let self0 := snd (emit database.ReloadingPipeline self) in
  match Flush fuel self0 with
  | None => None
  | Some (Raise e, self1) => Some (emit (database.ErrorDuringReload e) self1)
  | Some (Ok _, self1) =>
      match (disconnect ;; set_config new) self1 with
      | (Raise e, self2) => Some (emit (database.ErrorDuringReload e) self2)
      | r => Some r
      end
  end.

Definition Shutdown (fuel : nat) (crash : bool) (self : MetricPipeline)
  : option (result unit * MetricPipeline) :=
  let finish (e : exn) (s : MetricPipeline) :=
    ((if negb crash then emit (database.ErrorDuringShutdown e) else ret tt) ;;
     set_shutdown true) s in
  match Flush fuel self with
  | None => None
  | Some (Raise e, self1) => Some (finish e self1)
  | Some (Ok _, self1) =>
      match disconnect self1 with
      | (Raise e, self2) => Some (finish e self2)
      | (Ok _, self2) => Some (set_shutdown true self2)
      end
  end.

End World.

End metrics.

(** ** Notions the statements below are phrased with *)

Module Spec.
Import Py.

(** The part of [s] before the first [c] (all of [s] when there is none). *)
Fixpoint before (c : ascii) (s : string) : string :=
  match s with
  | EmptyString => EmptyString
  | String d r => if Ascii.eqb d c then EmptyString else String d (before c r)
  end.

(** The part of [s] after the first [c] (nothing when there is none). *)
Fixpoint after (c : ascii) (s : string) : string :=
  match s with
  | EmptyString => EmptyString
  | String d r => if Ascii.eqb d c then r else after c r
  end.

(** A token cut at its first ['=']: the key and the value [ConvertHashType]
    would store. *)
Definition pair_of_token (token : string) : string * pyval :=
  (before "=" token, PStr (strip (after "=" token))).

(** The hash conversion as the specification words it: every token is cut
    at its first ['='], and a token without ['='] fails the conversion. *)
Definition hash_by_first_equals (text : string) : option pydict :=
  if forallb (contains "=") (split text)
  then Some (dict_of_pairs (map pair_of_token (split text)))
  else None.

(** The failures of [Config.Load] that come before the schema is built:
    no file, a file the parser rejects, no [global] section, no [database]
    or no root key in it, an empty or unsupported [database]. *)
Definition fails_before_schema (disk : string -> config.file)
  (self : config.Config) : bool :=
  match config.path self with
  | None => false
  | Some p =>
      match disk p with
      | config.NoFile | config.Malformed => true
      | config.Ini parser =>
          negb (config.has_section parser config.GLOBAL_SECTION)
          || negb (config.has_option parser config.GLOBAL_SECTION "database")
          || negb (config.has_option parser config.GLOBAL_SECTION
                     (config.root self))
          || match config.parser_get parser config.GLOBAL_SECTION "database"
             with
             | Ok db =>
                 negb (truthy (PStr db))
                 || negb (mem db config.SUPPORTED_DATABASES)
             | Raise _ => true
             end
      end
  end.

(** The type hints [ConvertValue] and [DefaultValue] know. *)
Definition supported_hints : list string :=
  [config.ARRAY_TYPE; config.HASH_TYPE; config.INT_TYPE; config.BOOL_TYPE;
   config.FLOAT_TYPE; config.STRING_TYPE].

(** The hint a loaded schema registers for a field of a measurement. *)
Definition hint_of (c : config.Config) (measurement name : string)
  : option string :=
  match dict_get "measurements" (config.config c) with
  | Some (PDict known) =>
      match dict_get measurement known with
      | Some (PDict fields) =>
          match dict_get name fields with
          | Some (PStr h) => Some h
          | _ => None
          end
      | _ => None
      end
  | _ => None
  end.

(** A field as partial-field degradation leaves it: the clean value is
    the original coerced to the hint, or the default of the hint when the
    coercion fails. *)
Definition degraded (c : config.Config) (measurement : string)
  (nf : string * metrics.field) : string * metrics.field :=
  (fst nf,
   metrics.mkfield (metrics.original (snd nf))
     match hint_of c measurement (fst nf) with
     | Some h =>
         match config.ConvertValue (metrics.original (snd nf)) (PStr h) with
         | Ok v => v
         | Raise _ =>
             match config.DefaultValue (PStr h) with
             | Ok d => d
             | Raise _ => metrics.clean (snd nf)
             end
         end
     | None => metrics.clean (snd nf)
     end).

(** The coercion of a value to a hint returns or raises a conversion
    failure (it lets no other exception through). *)
Definition settles (value : pyval) (h : string) : Prop :=
  (exists v, config.ConvertValue value (PStr h) = Ok v)
  \/ (exists msg,
        config.ConvertValue value (PStr h) = Raise (ConversionFailure msg)).

(** A field of a metric whose name is registered for the measurement. *)
Definition registered (c : config.Config) (measurement : string)
  (nf : string * metrics.field) : Prop :=
  exists h, hint_of c measurement (fst nf) = Some h
            /\ In h supported_hints
            /\ settles (metrics.original (snd nf)) h.

(** A record with at least one field. *)
Definition has_fields (metric : metrics.Metric) : Prop :=
  metrics.fields metric <> [].

(** The calls that hand points to the backend, and what they carried. *)
Definition is_write (c : database.call) : bool :=
  match c with
  | database.writer_write _ _ => true
  | _ => false
  end.

Definition count_writes (h : list database.call) : nat :=
  List.length (filter is_write h).

Fixpoint writes (h : list database.call) : list (list database.Point) :=
  match h with
  | [] => []
  | database.writer_write _ record :: t => record :: writes t
  | _ :: t => writes t
  end.

(** A queue cut into consecutive batches of [b] records, the last one
    shorter when the length is no multiple of [b]. *)
Fixpoint chunks_from {A : Type} (fuel b : nat) (q : list A) : list (list A) :=
  match fuel with
  | O => []
  | S fuel' =>
      match q with
      | [] => []
      | _ => firstn b q :: chunks_from fuel' b (skipn b q)
      end
  end.

Definition chunks {A : Type} (b : nat) (q : list A) : list (list A) :=
  chunks_from (List.length q) b q.

(** A backend configuration from which the client can be built and the
    points written. *)
Definition usable (cfg : pyval) : bool :=
  match cfg with
  | PDict d =>
      dict_mem "server" d && dict_mem "token" d && dict_mem "org" d
      && dict_mem "bucket" d
  | _ => false
  end.

(** The pipeline holds a backend handle with a usable configuration, or
    its schema selects [influxdb] with one. *)
Definition ready (disk : string -> config.file) (p : metrics.MetricPipeline)
  : Prop :=
  match metrics.database p with
  | Some db => usable (database.config db) = true
  | None =>
      exists cfg c',
        config.GetDatabase disk (metrics.config p)
        = (Ok (PStr "influxdb", cfg), c')
        /\ usable cfg = true
  end.

(** The library answers every call made before the write number [n] (the
    writes counted from zero), that write excepted. *)
Definition succeeds_until (library : list database.call -> database.call
                                     -> option exn) (n : nat) : Prop :=
  forall h c,
    (count_writes h < n)%nat \/ (count_writes h = n /\ is_write c = false) ->
    library h c = None.

(** The library raises [e] at the write number [n]. *)
Definition fails_at (library : list database.call -> database.call
                               -> option exn) (n : nat) (e : exn) : Prop :=
  forall h bucket record,
    count_writes h = n ->
    library h (database.writer_write bucket record) = Some e.

(** A step of [Load] is stable when it leaves the path and the root
    alone and never empties [self.config]. *)
Definition stable {A : Type} (m : Eff.M config.Config A) : Prop :=
  forall s,
    config.path (snd (m s)) = config.path s
    /\ config.root (snd (m s)) = config.root s
    /\ (config.config s <> [] -> config.config (snd (m s)) <> []).

(** What [Enqueue] may change besides the queue: the lines logged. *)
Definition logs_only (p p' : metrics.MetricPipeline) : Prop :=
  metrics.config p' = metrics.config p
  /\ metrics.logger p' = metrics.logger p
  /\ metrics.batchSize p' = metrics.batchSize p
  /\ metrics.queue p' = metrics.queue p
  /\ metrics.database p' = metrics.database p
  /\ metrics.shutdown p' = metrics.shutdown p
  /\ database.calls (metrics.outside p') = database.calls (metrics.outside p).

(** What a method of the handle leaves alone when it only talks to the
    library: the configuration, and the lines logged. *)
Definition talks_only (s s' : database.InfluxDatabase * database.Outside)
  : Prop :=
  database.config (fst s') = database.config (fst s)
  /\ database.log (snd s') = database.log (snd s).

(** What sending a batch leaves alone. *)
Definition keeps (p p' : metrics.MetricPipeline) : Prop :=
  metrics.queue p' = metrics.queue p
  /\ metrics.batchSize p' = metrics.batchSize p
  /\ metrics.shutdown p' = metrics.shutdown p
  /\ metrics.logger p' = metrics.logger p.

(** A step that leaves the queue, the batch size, the flag and the logger
    as they are. *)
Definition keeping {A : Type} (m : Eff.M metrics.MetricPipeline A) : Prop :=
  forall p, keeps p (snd (m p)).

(** *** Coercion without a hint *)

(** The boolean literals of the specification. *)
Definition true_words : list string := ["yes"; "1"; "true"].
Definition false_words : list string := ["no"; "0"; "false"].

(** A finite float cut to the integer of the same sign next to zero. *)
Definition truncate (f : spec_float) : Z :=
  match f with
  | S754_finite s m e =>
      cond_Zopp s (if 0 <=? e then Zpos m * 2 ^ e else Zpos m / 2 ^ (- e))
  | _ => 0
  end.

(** What a value without a decimal point gives once [float] has read it
    as [f]: the integer part of a finite [f]; the value itself when [f] is
    no number; and an [OverflowError] when [f] is an infinity. *)
Definition whole (value : pyval) (f : spec_float) : result pyval :=
  match f with
  | S754_nan => Ok value
  | S754_infinity _ => Raise OverflowError
  | _ => Ok (PInt (truncate f))
  end.

(** Coercion without a hint, as a specification words it: text is
    stripped; a boolean literal, in any case, gives the boolean; text
    [float] rejects comes back stripped; text with a point gives the
    float; other text goes through [whole].  Of the other values, the
    booleans and the integers 1 and 0 give booleans, a number goes through
    [whole], and anything else comes back as it is. *)
Definition hintless (value : pyval) : result pyval :=
  match value with
  | PStr s =>
      let t := strip s in
      if mem (lower t) true_words then Ok (PBool true)
      else if mem (lower t) false_words then Ok (PBool false)
      else
        match float_of_str t with
        | None => Ok (PStr t)
        | Some f => if contains "." t then Ok (PFloat f) else whole (PStr t) f
        end
  | PBool b => Ok (PBool b)
  | PInt z =>
      if z =? 1 then Ok (PBool true)
      else if z =? 0 then Ok (PBool false)
      else
        match float_of_int z with
        | Ok f => whole value f
        | Raise e => Raise e
        end
  | PFloat f => whole value f
  | PNone | PList _ | PDict _ => Ok value
  end.

(** *** Sequences of calls on a pipeline *)

(** The calls a caller can make on a pipeline. *)
Inductive request : Type :=
| DoEnqueue (metrics : metrics.argument)
| DoFlush
| DoReload (new : config.Config)
| DoShutdown (crash : bool).

Section Requests.

Variable disk : string -> config.file.
Variable INFLUXDB_SUPPORTED : bool.
Variable library : list database.call -> database.call -> option exn.

(** The rounds allowed to each [Flush]. *)
Variable fuel : nat.

(** The pipeline as a call leaves it, whether the call returns or raises;
    [None] when the rounds allowed do not suffice. *)
Definition after_request (r : request) (p : metrics.MetricPipeline)
  : option metrics.MetricPipeline :=
  match r with
  | DoEnqueue metrics => Some (snd (metrics.Enqueue disk metrics p))
  | DoFlush =>
      option_map snd (metrics.Flush disk INFLUXDB_SUPPORTED library fuel p)
  | DoReload new =>
      option_map snd
        (metrics.Reload disk INFLUXDB_SUPPORTED library fuel new p)
  | DoShutdown crash =>
      option_map snd
        (metrics.Shutdown disk INFLUXDB_SUPPORTED library fuel crash p)
  end.

(** ... and as a sequence of calls leaves it. *)
Fixpoint after_requests (rs : list request) (p : metrics.MetricPipeline)
  : option metrics.MetricPipeline :=
  match rs with
  | [] => Some p
  | r :: rest =>
      match after_request r p with
      | Some p1 => after_requests rest p1
      | None => None
      end
  end.

End Requests.

(** The objects handed to [Enqueue], and the metrics among them. *)
Definition items_of (a : metrics.argument) : list metrics.item :=
  match a with
  | metrics.Collection l => l
  | metrics.Single i => [i]
  end.

Definition metric_of (i : metrics.item) : list metrics.Metric :=
  match i with
  | metrics.AMetric metric => [metric]
  | metrics.NotAMetric => []
  end.

Definition metrics_of (a : metrics.argument) : list metrics.Metric :=
  flat_map metric_of (items_of a).

(** The metrics a sequence of calls hands to [Enqueue]. *)
Definition arrivals (rs : list request) : list metrics.Metric :=
  flat_map (fun r => match r with
                     | DoEnqueue a => metrics_of a
                     | _ => []
                     end) rs.

(** A point with at least one field. *)
Definition point_has_fields (pt : database.Point) : Prop :=
  database.point_fields pt <> [].

(** The library calls made from one moment to a later one: the trace only
    grew, and every record the calls added hand to the writer satisfies
    [Q]. *)
Definition calls_extend (Q : list database.Point -> Prop)
  (h h' : list database.call) : Prop :=
  exists added,
    h' = (h ++ added)%list
    /\ Forall (fun c => match c with
                        | database.writer_write _ record => Q record
                        | _ => True
                        end) added.

(** A method of the backend handle, and one of the pipeline, whose
    writes all satisfy [Q]. *)
Definition talking {A : Type} (Q : list database.Point -> Prop)
  (m : Eff.M (database.InfluxDatabase * database.Outside) A) : Prop :=
  forall s,
    calls_extend Q (database.calls (snd s)) (database.calls (snd (snd (m s)))).

Definition sending {A : Type} (Q : list database.Point -> Prop)
  (m : Eff.M metrics.MetricPipeline A) : Prop :=
  forall p,
    calls_extend Q (database.calls (metrics.outside p))
                 (database.calls (metrics.outside (snd (m p)))).

(** What a call on the pipeline leaves alone or only shortens: the batch
    size stays, the queue loses records from its head, and the library
    sees only points with fields. *)
Definition drains (p p' : metrics.MetricPipeline) : Prop :=
  metrics.batchSize p' = metrics.batchSize p
  /\ (exists k, metrics.queue p' = skipn k (metrics.queue p))
  /\ calls_extend (Forall point_has_fields)
       (database.calls (metrics.outside p))
       (database.calls (metrics.outside p')).

(** A stored record with the field names of a metric. *)
Definition same_names (r m : metrics.Metric) : Prop :=
  map fst (metrics.fields r) = map fst (metrics.fields m).

(** What [Enqueue] does to the pipeline besides loading the schema and
    logging: it appends to the queue records that each have the field
    names of a metric it was handed, at most one a metric. *)
Definition appends (arrived : list metrics.Metric)
  (p p' : metrics.MetricPipeline) : Prop :=
  metrics.batchSize p' = metrics.batchSize p
  /\ database.calls (metrics.outside p') = database.calls (metrics.outside p)
  /\ exists added,
       metrics.queue p' = (metrics.queue p ++ added)%list
       /\ (List.length added <= List.length arrived)%nat
       /\ Forall (fun r => exists m, In m arrived /\ same_names r m) added.

(** Where a queued record comes from: it was in the queue [q] before, or
    it has the field names of a metric that arrived. *)
Definition comes_from (q arrived : list metrics.Metric) (r : metrics.Metric)
  : Prop :=
  In r q \/ exists m, In m arrived /\ same_names r m.

(** A step that leaves the queue, the batch size and the library
    alone. *)
Definition quietly (p p' : metrics.MetricPipeline) : Prop :=
  keeps p p'
  /\ database.calls (metrics.outside p') = database.calls (metrics.outside p).

(** What one call does to the batch size, the library and the queue. *)
Definition moves (arrived : list metrics.Metric)
  (p p' : metrics.MetricPipeline) : Prop :=
  metrics.batchSize p' = metrics.batchSize p
  /\ calls_extend (Forall point_has_fields)
       (database.calls (metrics.outside p))
       (database.calls (metrics.outside p'))
  /\ Forall (comes_from (metrics.queue p) arrived) (metrics.queue p')
  /\ (List.length (metrics.queue p')
      <= List.length (metrics.queue p) + List.length arrived)%nat.

End Spec.

(** ** Concrete inputs for the statements *)

Module Examples.
Import Py.

(** A configuration with two devices and two measurements. *)
Definition monitor_ini : config.ini :=
  [("global", [("database", "influxdb"); ("devices", "dev1 dev2")]);
   ("influxdb", [("server", "localhost"); ("port", "8086"); ("token", "t");
                 ("org", "o"); ("bucket", "b")]);
   ("dev1", [("measurements", "cpu mem"); ("tags", "site=a rack=3")]);
   ("dev2", [("measurements", "cpu")]);
   ("cpu", [("usage", "float"); ("cores", "int")]);
   ("mem", [("free", "int")])].

(** A configuration that names a device and has no section for it. *)
Definition orphan_ini : config.ini :=
  [("global", [("database", "influxdb"); ("devices", "dev1")])].

(** A configuration whose backend section names no server. *)
Definition serverless_ini : config.ini :=
  [("global", [("database", "influxdb"); ("devices", "dev1")]);
   ("influxdb", [("token", "t"); ("org", "o"); ("bucket", "b")]);
   ("dev1", [("measurements", "cpu")]);
   ("cpu", [("usage", "float"); ("cores", "int")])].

Definition disk (p : string) : config.file :=
  if String.eqb p "/etc/monitor.ini" then config.Ini monitor_ini
  else if String.eqb p "/etc/orphan.ini" then config.Ini orphan_ini
  else if String.eqb p "/etc/serverless.ini" then config.Ini serverless_ini
  else config.NoFile.

(** The schema object for that file and a pipeline on it, with a logger
    and the default batch size, before anything was sent or logged. *)
Definition schema : config.Config :=
  config.init (Some "/etc/monitor.ini") "devices".

Definition pipeline : metrics.MetricPipeline :=
  metrics.init schema metrics.DEFAULT_BATCH_SIZE true
               (database.mkOutside [] []).

(** The same once the file was loaded. *)
Definition loaded_schema : config.Config := snd (config.Load disk schema).

Definition running : metrics.MetricPipeline :=
  metrics.init loaded_schema metrics.DEFAULT_BATCH_SIZE true
               (database.mkOutside [] []).

(** A metric of the registered measurement [cpu]: [usage] converts to a
    float, [cores] does not convert to an integer. *)
Definition cpu_metric : metrics.Metric :=
  metrics.AddField "cores" (PStr "abc")
    (metrics.AddField "usage" (PStr "12.5")
       (metrics.Metric_init 1000 (PStr "dev1") (PStr "cpu") None)).

(** A metric of the measurement [disk], which the file does not have. *)
Definition disk_metric : metrics.Metric :=
  metrics.AddField "free" (PInt 1)
    (metrics.Metric_init 1000 (PStr "dev1") (PStr "disk") None).

(** A metric of [cpu] with a field the file does not declare. *)
Definition stray_field_metric : metrics.Metric :=
  metrics.AddField "temperature" (PInt 40)
    (metrics.Metric_init 1000 (PStr "dev1") (PStr "cpu") None).

(** A metric to which no field was added. *)
Definition bare_metric : metrics.Metric :=
  metrics.Metric_init 1000 (PStr "dev1") (PStr "cpu") None.

(** A pipeline with twenty-five records waiting and no backend yet. *)
Definition backlog : metrics.MetricPipeline :=
  metrics.mkPipeline loaded_schema true 10 (repeat cpu_metric 25) None false
                     (database.mkOutside [] []).


(** A backend that always answers, and one that times out at its second
    write and answers otherwise. *)
Definition always_up (h : list database.call) (c : database.call)
  : option exn := None.

Definition down_at_second (h : list database.call) (c : database.call)
  : option exn :=
  if Spec.is_write c && (Spec.count_writes h =? 1)%nat then Some Timeout
  else None.

(** A backend whose client cannot be built. *)
Definition never_connects (h : list database.call) (c : database.call)
  : option exn :=
  match c with
  | database.InfluxDBClient _ _ _ _ _ => Some ConnectionError
  | _ => None
  end.

(** The call that builds the client. *)
Definition is_client_call (c : database.call) : bool :=
  match c with
  | database.InfluxDBClient _ _ _ _ _ => true
  | _ => false
  end.

(** A backend whose client cannot be built at the first attempt and can
    be built at the next. *)
Definition connects_at_second_try (h : list database.call)
  (c : database.call) : option exn :=
  if is_client_call c && negb (existsb is_client_call h)
  then Some ConnectionError
  else None.

(** A metric of [cpu], both fields registered: [usage] is no number, and
    [cores] is a number too large for a float. *)
Definition overflow_metric : metrics.Metric :=
  metrics.AddField "cores" (PStr "1.0e999")
    (metrics.AddField "usage" (PStr "abc")
       (metrics.Metric_init 1000 (PStr "dev1") (PStr "cpu") None)).

(** Calls on a pipeline, one after the other. *)
Definition session : list Spec.request :=
  [Spec.DoEnqueue (metrics.Collection [metrics.AMetric cpu_metric;
                                       metrics.NotAMetric;
                                       metrics.AMetric cpu_metric]);
   Spec.DoFlush;
   Spec.DoEnqueue (metrics.Single (metrics.AMetric cpu_metric));
   Spec.DoReload schema;
   Spec.DoEnqueue (metrics.Single (metrics.AMetric cpu_metric));
   Spec.DoShutdown false].

End Examples.

(** ** Properties *)

Import Py Eff Spec.

(** *** Type coercion *)

Section Coercion.
Import config Spec.

Lemma split_on_pieces (c : ascii) (s : string) :
  List.length (split_on c s) = S (count_char c s).
Proof.
  induction s as [|d r IH]; simpl; [reflexivity|].
  destruct (Ascii.eqb d c); simpl.
  - now rewrite IH.
  - destruct (split_on c r); simpl in *; [discriminate | assumption].
Qed.

Lemma split_on_uncut (c : ascii) (s : string) :
  count_char c s = O -> split_on c s = [s].
Proof.
  induction s as [|d r IH]; simpl; [reflexivity|].
  destruct (Ascii.eqb d c); simpl; [discriminate|].
  intros H. now rewrite (IH H).
Qed.

Lemma split_on_once (c : ascii) (s : string) :
  count_char c s = 1%nat -> split_on c s = [before c s; after c s].
Proof.
  induction s as [|d r IH]; simpl; [discriminate|].
  destruct (Ascii.eqb d c); simpl; intros H.
  - injection H as H. now rewrite (split_on_uncut _ _ H).
  - now rewrite (IH H).
Qed.

Lemma split_on_pair (c : ascii) (s k v : string) :
  split_on c s = [k; v] -> count_char c s = 1%nat.
Proof.
  intros H. pose proof (split_on_pieces c s) as L.
  rewrite H in L. simpl in L. congruence.
Qed.

(** The loop of [ConvertHashType] on tokens that each hold one ['=']. *)
Lemma ConvertHashType_loop_ok (value : string) (tokens : list string) :
  Forall (fun t => count_char "=" t = 1%nat) tokens ->
  forall acc,
    ConvertHashType_loop value tokens acc
    = Ok (fold_left (fun d kv => dict_set (fst kv) (snd kv) d)
                    (map pair_of_token tokens) acc).
Proof.
  induction 1 as [|t ts Ht _ IH]; intros acc; simpl; [reflexivity|].
  rewrite (split_on_once _ _ Ht). apply IH.
Qed.

(** ... and on tokens one of which does not. *)
Lemma ConvertHashType_loop_fails (value : string) (tokens : list string) :
  Exists (fun t => count_char "=" t <> 1%nat) tokens ->
  forall acc, exists msg,
    ConvertHashType_loop value tokens acc = Raise (ConversionFailure msg).
Proof.
  induction tokens as [|t ts IH]; intros E acc.
  - inversion E.
  - simpl. destruct (split_on "=" t) as [|k [|v [|w r]]] eqn:S;
      try (eexists; reflexivity).
    apply split_on_pair in S.
    inversion E as [? ? Hbad|? ? Hlater]; subst; [contradiction|].
    apply IH, Hlater.
Qed.

(** The loop raises nothing but [ConversionFailure]. *)
Lemma ConvertHashType_loop_outcome (value : string) (tokens : list string) :
  forall acc,
    (exists d, ConvertHashType_loop value tokens acc = Ok d)
    \/ (exists msg,
          ConvertHashType_loop value tokens acc = Raise (ConversionFailure msg)).
Proof.
  induction tokens as [|t ts IH]; intros acc; simpl.
  - left. now eexists.
  - destruct (split_on "=" t) as [|k [|v [|w r]]];
      try (right; eexists; reflexivity).
    apply IH.
Qed.

Lemma ConvertValue_hash (s : string) :
  ConvertValue (PStr s) (PStr HASH_TYPE)
  = rmap PDict (ConvertHashType_loop (strip s) (split (strip s)) []).
Proof.
  unfold ConvertValue. simpl.
  destruct (ConvertHashType_loop_outcome (strip s) (split (strip s)) [])
    as [[d E]|[msg E]]; rewrite E; reflexivity.
Qed.

(** C6, as the code has it.  The tokens of the stripped text are each
    split at every ['=']: when every token holds exactly one ['='] the
    result is the map of the keys before it to the values after it, and
    when some token holds none or more than one the conversion raises
    [ConversionFailure]. *)
Theorem hash_coercion_one_equals_per_token (s : string) :
  (Forall (fun t => count_char "=" t = 1%nat) (split (strip s)) ->
   ConvertValue (PStr s) (PStr HASH_TYPE)
   = Ok (PDict (dict_of_pairs (map pair_of_token (split (strip s))))))
  /\
  (Exists (fun t => count_char "=" t <> 1%nat) (split (strip s)) ->
   exists msg,
     ConvertValue (PStr s) (PStr HASH_TYPE) = Raise (ConversionFailure msg)).
Proof.
  rewrite ConvertValue_hash. split; intros H.
  - now rewrite (ConvertHashType_loop_ok _ _ H).
  - destruct (ConvertHashType_loop_fails (strip s) _ H []) as [msg E].
    exists msg. now rewrite E.
Qed.

(** The two conversions the specification names, through the theorem. *)
Lemma hash_coercion_one_equals_per_token_witness :
  ConvertValue (PStr "a=1 b=2") (PStr HASH_TYPE)
  = Ok (PDict [("a", PStr "1"); ("b", PStr "2")])
  /\ exists msg,
       ConvertValue (PStr "a=1 bad") (PStr HASH_TYPE)
       = Raise (ConversionFailure msg).
Proof.
  split.
  - apply (proj1 (hash_coercion_one_equals_per_token "a=1 b=2")).
    repeat constructor.
  - apply (proj2 (hash_coercion_one_equals_per_token "a=1 bad")).
    apply Exists_cons_tl, Exists_cons_hd. simpl. discriminate.
Defined.

(** C6 fails as stated: a token with two ['='] is not cut at the first
    one; the conversion the specification describes yields [{a: "b=c"}]
    and the code raises. *)
Lemma hash_coercion_second_equals :
  hash_by_first_equals "a=b=c" = Some [("a", PStr "b=c")]
  /\ ConvertValue (PStr "a=b=c") (PStr HASH_TYPE)
     = Raise (ConversionFailure
                "Invalid option 'a=b=c' for key-value pair: a=b=c").
Proof. split; reflexivity. Qed.

(** C4, as the code has it.  On the default of [int], [bool], [float] and
    [string] the conversion to the same type succeeds and gives the
    default back; the defaults of [array] and [hash] are a list and a
    dictionary, which have no [split], and converting them raises
    [AttributeError]. *)
Theorem default_coercion (h : string) :
  (In h [INT_TYPE; BOOL_TYPE; FLOAT_TYPE; STRING_TYPE] ->
   exists d, DefaultValue (PStr h) = Ok d /\ ConvertValue d (PStr h) = Ok d)
  /\
  (In h [ARRAY_TYPE; HASH_TYPE] ->
   exists d, DefaultValue (PStr h) = Ok d
             /\ ConvertValue d (PStr h) = Raise AttributeError).
Proof.
  split; intros H; simpl in H;
    repeat (destruct H as [<-|H]; [eexists; split; reflexivity|]);
    contradiction.
Qed.

Lemma default_coercion_witness :
  ConvertValue (PInt 0) (PStr INT_TYPE) = Ok (PInt 0)
  /\ ConvertValue (PList []) (PStr ARRAY_TYPE) = Raise AttributeError.
Proof.
  split.
  - destruct (proj1 (default_coercion INT_TYPE)) as [d [D C]];
      [simpl; auto|].
    injection D as <-. exact C.
  - destruct (proj2 (default_coercion ARRAY_TYPE)) as [d [D C]];
      [simpl; auto|].
    injection D as <-. exact C.
Defined.

(** C4 fails as stated at [array] (and at [hash]). *)
Lemma default_coercion_array :
  DefaultValue (PStr ARRAY_TYPE) = Ok (PList [])
  /\ ConvertValue (PList []) (PStr ARRAY_TYPE) = Raise AttributeError
  /\ ConvertValue (PList []) (PStr ARRAY_TYPE) <> Ok (PList []).
Proof. repeat split; discriminate. Qed.

(** The decimal text of a number has no letter. *)
Lemma lower_digits (d : Decimal.uint) :
  lower (NilEmpty.string_of_uint d) = NilEmpty.string_of_uint d.
Proof. induction d; simpl; try reflexivity; now rewrite IHd. Qed.

Lemma lower_str_of_Z (z : Z) : lower (str_of_Z z) = str_of_Z z.
Proof.
  unfold str_of_Z, NilZero.string_of_int, NilZero.string_of_uint.
  destruct (Z.to_int z) as [d|d].
  - destruct d; try reflexivity; apply lower_digits.
  - cbn [lower]. f_equal. destruct d; try reflexivity; apply lower_digits.
Qed.

(** ... and is none of the words [ConvertBoolean] knows, [1] and [0]
    apart. *)
Lemma str_of_Z_no_word (z : Z) (w : string) :
  In w ["yes"; "true"; "no"; "false"] -> String.eqb (str_of_Z z) w = false.
Proof.
  intros H. unfold str_of_Z, NilZero.string_of_int, NilZero.string_of_uint.
  simpl in H. destruct H as [<-|[<-|[<-|[<-|[]]]]];
    destruct (Z.to_int z) as [d|d]; destruct d; reflexivity.
Qed.

Lemma to_int_proper (z : Z) :
  Z.to_int z <> Decimal.Pos Decimal.Nil /\ Z.to_int z <> Decimal.Neg Decimal.Nil.
Proof.
  destruct z; simpl; split; try discriminate; intros [= H];
    now apply DecimalPos.Unsigned.to_uint_nonnil in H.
Qed.

(** Two integers with the same decimal text are equal. *)
Lemma str_of_Z_inj (z z' : Z) : str_of_Z z = str_of_Z z' -> z = z'.
Proof.
  unfold str_of_Z. intros H.
  apply (f_equal NilZero.int_of_string) in H.
  destruct (to_int_proper z) as [P N]. destruct (to_int_proper z') as [P' N'].
  rewrite !NilZero.isi in H by assumption.
  injection H as H. apply (f_equal Z.of_int) in H.
  now rewrite !DecimalZ.of_to in H.
Qed.

Lemma str_of_Z_eqb (z z' : Z) :
  String.eqb (str_of_Z z) (str_of_Z z') = (z =? z').
Proof.
  destruct (Z.eqb_spec z z') as [->|N].
  - apply String.eqb_refl.
  - apply String.eqb_neq. intros H. now apply str_of_Z_inj in H.
Qed.

(** [ConvertBoolean] on an integer. *)
Lemma ConvertBoolean_int (z : Z) :
  ConvertBoolean (PInt z)
  = if z =? 1 then Some true else if z =? 0 then Some false else None.
Proof.
  unfold ConvertBoolean. cbn [str]. rewrite lower_str_of_Z.
  cbn [mem existsb].
  rewrite (str_of_Z_no_word z "yes"), (str_of_Z_no_word z "true"),
    (str_of_Z_no_word z "no"), (str_of_Z_no_word z "false")
    by (simpl; tauto).
  change "1" with (str_of_Z 1). change "0" with (str_of_Z 0).
  rewrite !str_of_Z_eqb.
  destruct (z =? 1), (z =? 0); reflexivity.
Qed.

(** C8, as the code has it.  Without a hint [ConvertValue] computes
    [hintless]: text is first stripped of the white space around it; a
    boolean literal ([yes], [1], [true]; [no], [0], [false]), in any case,
    gives the boolean; text that [float] rejects comes back stripped, and
    nothing is raised; text with a point that [float] accepts gives that
    float; text without a point gives the integer part of the float when
    it is finite and comes back stripped when the float is no number.
    Of the values that are no text, a boolean comes back, the integers 1
    and 0 give the booleans, any other number gives its integer part when
    it is finite and comes back when it is no number, and everything else
    comes back as it is.  When a value without a point reads as an
    infinity, or is an integer too large for a float, [OverflowError]
    leaves the call. *)
Theorem hintless_coercion (value : pyval) :
  ConvertValue value PNone = hintless value.
Proof.
  destruct value as [|b|z|f|s|l|d]; try reflexivity.
  - now destruct b.
  - unfold ConvertValue, ConvertValue_try. rewrite ConvertBoolean_int.
    cbn [hintless]. destruct (z =? 1) eqn:E1; [reflexivity|].
    destruct (z =? 0) eqn:E0; [reflexivity|].
    cbn [float str_with_point]. destruct (float_of_int z) as [f|e] eqn:F.
    + now destruct f.
    + unfold float_of_int in F.
      destruct (binary_normalize prec emax z 0 false); try discriminate.
      now injection F as <-.
  - now destruct f.
  - unfold ConvertValue, ConvertValue_try. cbn [hintless].
    set (t := strip s).
    unfold ConvertBoolean. cbn [str]. fold true_words false_words.
    destruct (mem (lower t) true_words) eqn:T; [reflexivity|].
    destruct (mem (lower t) false_words) eqn:F; [reflexivity|].
    cbn [float str_with_point]. destruct (float_of_str t) as [f|].
    + cbn [rbind]. destruct (contains "." t); [reflexivity|].
      destruct f; try reflexivity.
      all: cbn; now rewrite ?T, ?F.
    + cbn. now rewrite ?T, ?F.
Qed.

(** The five conversions the specification names, and three more:
    text with white space around it, text that reads as no number, and
    text that reads as an infinity. *)
Lemma hintless_coercion_witness :
  config.ConvertValue (PStr "yes") PNone = Ok (PBool true)
  /\ config.ConvertValue (PStr "0") PNone = Ok (PBool false)
  /\ (exists f, config.ConvertValue (PStr "3.5") PNone = Ok (PFloat f)
                /\ exists q, float_value f = Some q /\ (q == 7 # 2)%Q)
  /\ config.ConvertValue (PStr "3") PNone = Ok (PInt 3)
  /\ config.ConvertValue (PStr "abc") PNone = Ok (PStr "abc")
  /\ config.ConvertValue (PStr " abc ") PNone = Ok (PStr "abc")
  /\ config.ConvertValue (PStr "nan") PNone = Ok (PStr "nan")
  /\ config.ConvertValue (PStr "inf") PNone = Raise OverflowError.
Proof.
  rewrite !hintless_coercion.
  split; [|split; [|split; [|split; [|split; [|split; [|split]]]]]];
    try reflexivity.
  exists (S754_finite false 7881299347898368 (-51)). split; [reflexivity|].
  eexists. split; reflexivity.
Defined.

(** C8 fails as stated: text that is no number comes back without the
    white space around it, not unchanged. *)
Lemma hintless_coercion_strips :
  float (PStr " abc ") = Raise ValueError
  /\ ConvertValue (PStr " abc ") PNone = Ok (PStr "abc")
  /\ ConvertValue (PStr " abc ") PNone <> Ok (PStr " abc ").
Proof. repeat split; discriminate. Qed.

(** A value [float] reads as an infinity and that has no point is not
    returned either: truncating it to an integer raises
    [OverflowError], which [ConvertValue] does not catch. *)
Example hintless_coercion_infinity :
  ConvertValue (PStr "inf") PNone = Raise OverflowError
  /\ ConvertValue (PStr "1e400") PNone = Raise OverflowError.
Proof. split; reflexivity. Qed.

End Coercion.

(** *** Loading the schema *)

Section Stable.
Import config.

Lemma stable_ret {A : Type} (a : A) : stable (ret a).
Proof. intros s. simpl. auto. Qed.

Lemma stable_raise {A : Type} (e : exn) : stable (@raise Config A e).
Proof. intros s. simpl. auto. Qed.

Lemma stable_lift {A : Type} (r : result A) : stable (lift r).
Proof. intros s. simpl. auto. Qed.

Lemma stable_get : stable (@get Config).
Proof. intros s. simpl. auto. Qed.

Lemma stable_cfg_read (keys : list string) : stable (cfg_read keys).
Proof. intros s. simpl. auto. Qed.

Lemma stable_set_database (v : pyval) : stable (set_database v).
Proof. intros s. simpl. auto. Qed.

Lemma dict_set_nonempty {A : Type} (k : string) (v : A) (d : list (string * A)) :
  dict_set k v d <> [].
Proof.
  destruct d as [|[k' v'] r]; simpl; [discriminate|].
  destruct (String.eqb k k'); discriminate.
Qed.

Lemma assign_nonempty (keys : list string) (k : string) (v : pyval)
  (d d' : pydict) :
  assign keys k v d = Ok d' -> d' <> [].
Proof.
  destruct keys as [|k1 rest]; simpl.
  - intros [= <-]. apply dict_set_nonempty.
  - destruct (dict_get k1 d) as [[]|]; try discriminate.
    destruct (assign rest k v d0); simpl; [|discriminate].
    intros [= <-]. apply dict_set_nonempty.
Qed.

Lemma stable_cfg_assign (keys : list string) (k : string) (v : pyval) :
  stable (cfg_assign keys k v).
Proof.
  intros s. unfold cfg_assign.
  destruct (assign keys k v (config s)) eqn:E; simpl; auto.
  repeat split. intros _. eapply assign_nonempty, E.
Qed.

Lemma stable_bind {A B : Type} (m : M Config A) (k : A -> M Config B) :
  stable m -> (forall a, stable (k a)) -> stable (bind m k).
Proof.
  intros Hm Hk s. unfold bind.
  destruct (Hm s) as (P & R & C).
  destruct (m s) as [[a|e] s1]; simpl in *; auto.
  destruct (Hk a s1) as (P1 & R1 & C1).
  repeat split; try congruence. auto.
Qed.

Lemma stable_for_each {A : Type} (l : list A) (body : A -> M Config unit) :
  (forall x, stable (body x)) -> stable (for_each l body).
Proof.
  intros H. induction l as [|x r IH]; simpl.
  - apply stable_ret.
  - apply stable_bind; auto.
Qed.

Lemma stable_for_fold {A B : Type} (l : list A) (body : B -> A -> M Config B) :
  (forall acc x, stable (body acc x)) ->
  forall acc, stable (for_fold l acc body).
Proof.
  intros H. induction l as [|x r IH]; intros acc; simpl.
  - apply stable_ret.
  - apply stable_bind; auto.
Qed.

End Stable.

Create HintDb stable.
#[local] Hint Resolve stable_ret stable_raise stable_lift stable_get
  stable_cfg_read stable_set_database stable_cfg_assign : stable.

(** Breaks a step into the primitive steps above. *)
Ltac stable_step :=
  repeat first
    [ progress intros
    | apply stable_bind
    | apply stable_for_each
    | apply stable_for_fold
    | solve [auto with stable]
    | match goal with
      | |- stable (if ?b then _ else _) => destruct b
      | |- stable (match ?x with _ => _ end) => destruct x
      | |- stable (let (_, _) := ?x in _) => destruct x
      end ].

Section Loading.
Import config Spec.

(** Once [self.config[self.database] = {}] has run, [self.config] is not
    empty, whatever happens next. *)
Lemma Load_schema_leaves_entries (parser : ini) (rootk db : string)
  (s : Config) :
  config (snd (Load_schema parser rootk db s)) <> []
  /\ path (snd (Load_schema parser rootk db s)) = path s.
Proof.
  unfold Load_schema at 1 2.
  set (rest := fun _ : unit => _).
  assert (R : forall u, stable (rest u)).
  { intros u. unfold rest, load_database_field, resolve_entry, load_entry,
      load_entry_field, load_entry_option, load_measurement,
      load_measurement_option.
    stable_step. }
  unfold bind, cfg_assign. simpl.
  destruct (R tt (mkConfig (path s) (root s) (dict_set db (PDict []) (config s))
                           (database s))) as (P & _ & C).
  split; [apply C, dict_set_nonempty | exact P].
Qed.

Lemma has_option_get (parser : ini) (section option : string) :
  has_option parser section option = true ->
  exists v, parser_get parser section option = Ok v.
Proof.
  unfold has_option, parser_get, dict_mem.
  destruct (dict_get section parser) as [opts|]; [|discriminate].
  destruct (dict_get (lower option) opts) as [v|]; [|discriminate].
  intros _. now exists v.
Qed.

Lemma unloaded_config (self : Config) :
  IsLoaded self = false ->
  config self = [] /\ exists p, path self = Some p.
Proof.
  unfold IsLoaded. destruct (path self) as [p|]; [|discriminate].
  destruct (config self); [|discriminate].
  intros _. split; [reflexivity | now exists p].
Qed.

Lemma loaded_config (self : Config) :
  config self <> [] -> IsLoaded self = true.
Proof.
  unfold IsLoaded. destruct (path self); [|reflexivity].
  destruct (config self); [contradiction | reflexivity].
Qed.

(** C2, as the code has it.  When [Load] raises, the object is left
    unloaded, with an empty [self.config], exactly when the failure comes
    before the schema is built (no file, a file the parser rejects, no
    [global] section, no [database] or root key, an unsupported database).
    A failure after that point leaves what was built so far in
    [self.config], and [IsLoaded] then answers [True]. *)
Theorem Load_failure_state (disk : string -> file) (self self' : Config)
  (e : exn) :
  Load disk self = (Raise e, self') ->
  (fails_before_schema disk self = true ->
   config self' = [] /\ IsLoaded self' = false)
  /\
  (fails_before_schema disk self = false ->
   config self' <> [] /\ IsLoaded self' = true).
Proof.
  unfold Load, fails_before_schema.
  destruct (IsLoaded self) eqn:L; [discriminate|].
  destruct (unloaded_config self L) as (C & p & P). rewrite P.
  assert (early : forall x, (@Raise unit x, self) = (Raise e, self') ->
                  (true = true -> config self' = [] /\ IsLoaded self' = false)
                  /\ (true = false ->
                      config self' <> [] /\ IsLoaded self' = true)).
  { intros x H. inversion H; subst. split; [auto | discriminate]. }
  destruct (disk p) as [| |parser]; [apply early | apply early |].
  unfold Load_parsed.
  destruct (has_section parser GLOBAL_SECTION); simpl; [|apply early].
  unfold bind, get, lift. simpl.
  destruct (has_option parser GLOBAL_SECTION "database") eqn:D; simpl;
    [|apply early].
  destruct (has_option parser GLOBAL_SECTION (root self)) eqn:R; simpl;
    [|apply early].
  destruct (has_option_get _ _ _ D) as [db G]. rewrite G. simpl.
  match goal with
  | |- context [if ?b then raise _ else _] => destruct b
  end.
  - intros H. inversion H; subst. unfold IsLoaded. simpl.
    rewrite P, C. split; [auto | discriminate].
  - intros H. split; [discriminate|]. intros _.
    pose proof (Load_schema_leaves_entries parser (root self) db
                  (mkConfig (path self) (root self) (config self) (PStr db)))
      as (N & _).
    rewrite H in N. simpl in N. split; [exact N | now apply loaded_config].
Qed.

Lemma Load_failure_state_witness :
  IsLoaded (init (Some "/etc/absent.ini") "devices") = false
  /\ IsLoaded (snd (Load Examples.disk (init (Some "/etc/orphan.ini") "devices")))
     = true.
Proof.
  split.
  - apply (Load_failure_state Examples.disk
             (init (Some "/etc/absent.ini") "devices")
             (init (Some "/etc/absent.ini") "devices")
             (ConfigError "Config file does not exist") eq_refl).
    reflexivity.
  - apply (Load_failure_state Examples.disk
             (init (Some "/etc/orphan.ini") "devices")
             (snd (Load Examples.disk (init (Some "/etc/orphan.ini") "devices")))
             (InvalidConfigError "Missing device configuration 'dev1'")
             eq_refl).
    reflexivity.
Defined.

(** C2 fails as stated: a file that names a device without a section for
    it makes [Load] raise after the database, measurement and root
    entries were stored, and [IsLoaded] answers [True] afterwards. *)
Lemma Load_failure_keeps_partial_schema :
  let self := init (Some "/etc/orphan.ini") "devices" in
  fst (Load Examples.disk self)
  = Raise (InvalidConfigError "Missing device configuration 'dev1'")
  /\ config (snd (Load Examples.disk self))
     = [("influxdb", PDict []); ("measurements", PDict []);
        ("devices", PDict [("dev1", PDict [])])]
  /\ IsLoaded (snd (Load Examples.disk self)) = true.
Proof. split; [|split]; reflexivity. Qed.

(** C10.  A [Config] built with no path is loaded from the start and stays
    so: [IsLoaded] is [True], [Load] returns at once whatever the disk
    holds and changes nothing, [GetRoot] gives an empty map, [GetTags]
    gives an empty map for every entity other than [None], none of them
    raises, and [Reload] leaves the object without a path again. *)
Theorem pathless_config (disk : string -> file) (rootk : string)
  (cfg : pydict) (db : pyval) :
  let self := mkConfig None rootk cfg db in
  IsLoaded self = true
  /\ Load disk self = (Ok tt, self)
  /\ GetRoot disk self = (Ok (PDict []), self)
  /\ (forall entity, entity <> PNone ->
                     GetTags disk entity self = (Ok (PDict []), self))
  /\ Reload disk self = (Ok tt, mkConfig None rootk [] PNone).
Proof.
  intros self. split; [|split; [|split; [|split]]]; try reflexivity.
  intros entity H. destruct entity; try reflexivity. contradiction.
Qed.

Lemma pathless_config_witness :
  GetTags Examples.disk (PStr "dev1") (init None "devices")
  = (Ok (PDict []), init None "devices").
Proof.
  apply (pathless_config Examples.disk "devices" [] PNone).
  discriminate.
Defined.

End Loading.

(** *** Enqueueing *)

Section Enqueueing.
Import Spec.

Variable disk : string -> config.file.

Lemma logs_only_refl (p : metrics.MetricPipeline) : logs_only p p.
Proof. repeat split. Qed.

Lemma logs_only_trans (p q r : metrics.MetricPipeline) :
  logs_only p q -> logs_only q r -> logs_only p r.
Proof. unfold logs_only. intuition congruence. Qed.

Lemma logs_only_emit (l : database.logline) (p : metrics.MetricPipeline) :
  fst (metrics.emit l p) = Ok tt /\ logs_only p (snd (metrics.emit l p)).
Proof.
  unfold metrics.emit. destruct (metrics.logger p) eqn:E; simpl;
    repeat split; auto.
Qed.

Lemma supported_hint_default (h : string) :
  In h supported_hints ->
  h <> "" /\ exists d, config.DefaultValue (PStr h) = Ok d.
Proof.
  intros H. simpl in H.
  repeat (destruct H as [<-|H];
          [split; [discriminate | eexists; reflexivity]|]).
  contradiction.
Qed.

Lemma GetField_registered (c : config.Config) (m name h : string) :
  config.IsLoaded c = true ->
  hint_of c m name = Some h ->
  h <> "" ->
  config.GetField disk (PStr m) (PStr name) c = (Ok (PStr h), c).
Proof.
  intros L H N. unfold hint_of in H.
  unfold config.GetField, config.ensure_loaded, bind, get. rewrite L. simpl.
  destruct (dict_get "measurements" (config.config c)) as [[| | | | | |known]|];
    try discriminate.
  simpl. unfold dict_mem.
  destruct (dict_get m known) as [[| | | | | |fields]|]; try discriminate.
  simpl.
  destruct (dict_get name fields) as [[| | | |t| |]|]; try discriminate.
  injection H as ->. simpl.
  destruct h; [contradiction | reflexivity].
Qed.

Lemma on_config_GetField (p : metrics.MetricPipeline) (m name h : string) :
  config.IsLoaded (metrics.config p) = true ->
  hint_of (metrics.config p) m name = Some h ->
  h <> "" ->
  metrics.on_config (config.GetField disk (PStr m) (PStr name)) p
  = (Ok (PStr h), p).
Proof.
  intros L H N. unfold metrics.on_config.
  rewrite (GetField_registered _ _ _ _ L H N). now destruct p.
Qed.

Lemma convert_fields_cons (measurement : pyval) (name : string)
  (f : metrics.field) (rest : list (string * metrics.field))
  (p : metrics.MetricPipeline) :
  metrics.convert_fields disk measurement ((name, f) :: rest) p
  = match metrics.on_config
            (config.GetField disk measurement (PStr name)) p with
    | (Ok hint, p1) =>
        match config.ConvertValue (metrics.original f) hint with
        | Ok c =>
            (r <- metrics.convert_fields disk measurement rest ;;
             ret ((name, metrics.mkfield (metrics.original f) c) :: fst r,
                  snd r))%eff p1
        | Raise (KeyError _) =>
            (self <- get ;;
             if metrics.logger self then
               metrics.emit (database.InvalidMetric measurement) ;;
               ret ((name, f) :: rest, true)
             else ret ((name, f) :: rest, false))%eff p1
        | Raise (ConversionFailure _) =>
            (metrics.emit (database.UnableToConvert measurement
                             (metrics.original f)) ;;
             d <- lift (config.DefaultValue hint) ;;
             r <- metrics.convert_fields disk measurement rest ;;
             ret ((name, metrics.mkfield (metrics.original f) d) :: fst r,
                  snd r))%eff p1
        | Raise e => (Raise e, p1)
        end
    | (Raise e, p1) => (Raise e, p1)
    end.
Proof.
  cbn [metrics.convert_fields]. unfold bind at 1.
  destruct (metrics.on_config _ p) as [[hint|e] p1]; [|reflexivity].
  destruct (config.ConvertValue (metrics.original f) hint) as [c|[]];
    reflexivity.
Qed.

(** The loop over the fields of a metric whose fields are all registered:
    it ends without [skip], every field degraded or coerced. *)
Lemma convert_fields_degrades (m : string) (todo : list (string * metrics.field)) :
  forall p,
    config.IsLoaded (metrics.config p) = true ->
    Forall (registered (metrics.config p) m) todo ->
    exists p',
      metrics.convert_fields disk (PStr m) todo p
      = (Ok (map (degraded (metrics.config p) m) todo, false), p')
      /\ logs_only p p'.
Proof.
  induction todo as [|[name f] rest IH]; intros p L F.
  - exists p. split; [reflexivity | apply logs_only_refl].
  - inversion F as [|? ? (h & H & S & T) F']; subst. simpl in H, T.
    destruct (supported_hint_default h S) as (N & d & D).
    rewrite convert_fields_cons, (on_config_GetField p m name h L H N).
    cbn [map]. unfold degraded at 1. cbn [fst snd]. rewrite H.
    destruct T as [[v E]|[msg E]]; rewrite E.
    + destruct (IH p L F') as (p' & R & Fr).
      unfold bind. rewrite R. simpl. exists p'. split; [reflexivity | exact Fr].
    + rewrite D. unfold bind at 1.
      destruct (logs_only_emit
                  (database.UnableToConvert (PStr m) (metrics.original f)) p)
        as (Em & Fe).
      destruct (metrics.emit _ p) as [r p1]. simpl in Em, Fe. subst r.
      unfold bind at 1. unfold lift at 1.
      assert (C1 : metrics.config p1 = metrics.config p) by apply Fe.
      destruct (IH p1) as (p' & R & Fr).
      { now rewrite C1. }
      { now rewrite C1. }
      unfold bind. rewrite R. simpl. rewrite C1.
      exists p'. split; [reflexivity | eapply logs_only_trans; eassumption].
Qed.

(** Degradation where it works.  On a running pipeline whose schema is
    loaded, a metric each of whose fields is registered for its
    measurement, and whose coercions each return or raise a conversion
    failure, is appended to the tail of the queue; in the record stored
    every field keeps its name and original value, a field whose coercion
    succeeds holds the coerced value, and a field whose coercion raises a
    conversion failure holds the default value of its hint.  Nothing is
    raised. *)
Theorem Enqueue_degrades_fields (p : metrics.MetricPipeline)
  (metric : metrics.Metric) (m : string) :
  metrics.shutdown p = false ->
  config.IsLoaded (metrics.config p) = true ->
  metrics.measurement metric = PStr m ->
  Forall (registered (metrics.config p) m) (metrics.fields metric) ->
  exists p',
    metrics.Enqueue disk (metrics.Single (metrics.AMetric metric)) p
    = (Ok tt, p')
    /\ metrics.queue p'
       = (metrics.queue p
          ++ [metrics.mkMetric (metrics.entity metric)
                (metrics.timestamp metric) (metrics.tags metric)
                (metrics.measurement metric)
                (map (degraded (metrics.config p) m) (metrics.fields metric))])%list
    /\ metrics.config p' = metrics.config p
    /\ metrics.database p' = metrics.database p
    /\ metrics.shutdown p' = false.
Proof.
  intros S L M F.
  unfold metrics.Enqueue. unfold bind at 1. unfold get at 1. rewrite S.
  cbn [for_each]. unfold bind at 1. unfold metrics.Enqueue_item.
  unfold bind at 1. rewrite M.
  destruct (convert_fields_degrades m (metrics.fields metric) p L F)
    as (p1 & R & Fr).
  rewrite R. cbn [fst snd negb]. unfold bind, get, metrics.set_queue, ret.
  destruct Fr as (Fc & _ & _ & Fq & Fd & Fs & _).
  eexists. split; [reflexivity|]. cbn.
  rewrite Fq. repeat split; congruence.
Qed.

End Enqueueing.

Section BareRecords.

Lemma fold_dict_set_nonempty {A : Type} (l : list (string * A))
  (acc : list (string * A)) :
  acc <> [] ->
  fold_left (fun d kv => dict_set (fst kv) (snd kv) d) l acc <> [].
Proof.
  revert acc. induction l as [|x r IH]; intros acc H; simpl; [exact H|].
  apply IH, dict_set_nonempty.
Qed.

Lemma dict_of_pairs_nonempty {A : Type} (l : list (string * A)) :
  l <> [] -> dict_of_pairs l <> [].
Proof.
  destruct l as [|x r]; [contradiction|]. intros _.
  unfold dict_of_pairs. cbn [fold_left].
  apply fold_dict_set_nonempty, dict_set_nonempty.
Qed.

End BareRecords.

Section EnqueueingExamples.
Import Spec Examples.

Lemma Enqueue_degrades_fields_witness :
  exists p',
    metrics.Enqueue disk (metrics.Single (metrics.AMetric cpu_metric)) running
    = (Ok tt, p')
    /\ map (fun r => map (fun nf => (fst nf, metrics.clean (snd nf)))
                         (metrics.fields r))
           (metrics.queue p')
       = [[("usage", PFloat (S754_finite false 7036874417766400 (-49)));
           ("cores", PInt 0)]].
Proof.
  assert (F : Forall (registered (metrics.config running) "cpu")
                     (metrics.fields cpu_metric)).
  { constructor; [|constructor; [|constructor]].
    - exists "float". split; [reflexivity|]. split; [simpl; tauto|].
      left. eexists. reflexivity.
    - exists "int". split; [reflexivity|]. split; [simpl; tauto|].
      right. eexists. reflexivity. }
  destruct (Enqueue_degrades_fields disk running cpu_metric "cpu"
              eq_refl eq_refl eq_refl F) as (p' & E & Q & _).
  exists p'. split; [exact E|]. rewrite Q. reflexivity.
Defined.

(** C1 at the failing inputs.  A metric of a measurement the loaded schema
    does not have, or with a field it does not declare, makes [Enqueue]
    raise [KeyError]: [GetField] is called before the [try] that would
    catch it.  Nothing is logged, and a good metric that follows in the
    same call is never looked at. *)
Theorem Enqueue_unregistered_escapes :
  (let r := metrics.Enqueue disk (metrics.Single (metrics.AMetric disk_metric))
              running in
   fst r = Raise (KeyError "Unknown measurement 'disk'")
   /\ metrics.queue (snd r) = []
   /\ database.log (metrics.outside (snd r)) = [])
  /\
  (let r := metrics.Enqueue disk
              (metrics.Single (metrics.AMetric stray_field_metric)) running in
   fst r = Raise (KeyError "Unknown field 'temperature' on measurement 'cpu'")
   /\ metrics.queue (snd r) = []
   /\ database.log (metrics.outside (snd r)) = [])
  /\
  (let r := metrics.Enqueue disk
              (metrics.Collection [metrics.AMetric disk_metric;
                                   metrics.AMetric cpu_metric]) running in
   fst r = Raise (KeyError "Unknown measurement 'disk'")
   /\ metrics.queue (snd r) = []).
Proof. repeat split. Qed.

(** C9 at the failing input.  Both fields of the metric are registered
    for [cpu]: [usage], hinted [float], holds text that is no number, and
    its coercion raises a conversion failure; [cores], hinted [int], holds
    [1.0e999].  [ConvertValue] turns [TypeError] and [ValueError] into a
    conversion failure and nothing else, so the [OverflowError] of
    [int(float("1.0e999"))] leaves it, where [int("1e999")], the same
    number written without a point, fails the conversion as the
    specification expects.  [Enqueue] catches only the conversion
    failure: the [OverflowError] leaves [Enqueue] after [usage] was
    logged, the record is not stored, and a good metric that follows in
    the same call is never looked at. *)
Theorem Enqueue_overflow_drops_record :
  Spec.hint_of (metrics.config Examples.running) "cpu" "usage" = Some "float"
  /\ Spec.hint_of (metrics.config Examples.running) "cpu" "cores" = Some "int"
  /\ config.ConvertValue (PStr "abc") (PStr "float")
     = Raise (ConversionFailure
                "Failed to convert the given value to the requested type")
  /\ config.ConvertValue (PStr "1.0e999") (PStr "int") = Raise OverflowError
  /\ config.ConvertValue (PStr "1e999") (PStr "int")
     = Raise (ConversionFailure
                "Failed to convert the given value to the requested type")
  /\ (let r := metrics.Enqueue Examples.disk
                 (metrics.Single (metrics.AMetric Examples.overflow_metric))
                 Examples.running in
      fst r = Raise OverflowError
      /\ metrics.queue (snd r) = []
      /\ database.log (metrics.outside (snd r))
         = [database.UnableToConvert (PStr "cpu") (PStr "abc")])
  /\ (let r := metrics.Enqueue Examples.disk
                 (metrics.Collection
                    [metrics.AMetric Examples.overflow_metric;
                     metrics.AMetric Examples.cpu_metric])
                 Examples.running in
      fst r = Raise OverflowError
      /\ metrics.queue (snd r) = []).
Proof. cbv zeta. repeat split; vm_compute; reflexivity. Qed.

(** C3 fails as stated: a metric without fields passes [Enqueue] and is
    stored with its empty field map. *)
Lemma Enqueue_stores_bare_metric :
  metrics.fields bare_metric = []
  /\ metrics.Enqueue disk (metrics.Single (metrics.AMetric bare_metric)) running
     = (Ok tt, snd (metrics.set_queue [bare_metric] running)).
Proof. split; reflexivity. Qed.

End EnqueueingExamples.

(** *** The backend handle *)

Section Backend.
Import Spec.

Variable library : list database.call -> database.call -> option exn.

Lemma count_writes_app (h : list database.call) (c : database.call) :
  count_writes (h ++ [c]) = (count_writes h + (if is_write c then 1 else 0))%nat.
Proof.
  unfold count_writes. rewrite filter_app, length_app. simpl.
  now destruct (is_write c).
Qed.

Lemma writes_app (h : list database.call) (c : database.call) :
  writes (h ++ [c])
  = (writes h ++ match c with
                 | database.writer_write _ record => [record]
                 | _ => []
                 end)%list.
Proof.
  induction h as [|x t IH]; simpl.
  - now destruct c.
  - destruct x; simpl; now rewrite IH.
Qed.

Lemma getitem_present (d : pydict) (k : string) :
  dict_mem k d = true -> exists x, getitem (PDict d) k = Ok x.
Proof.
  unfold dict_mem, getitem. destruct (dict_get k d) as [x|]; [|discriminate].
  intros _. now exists x.
Qed.

Lemma get_method_dict (d : pydict) (k : string) (default : pyval) :
  exists x, config.get_method (PDict d) (PStr k) default = Ok x.
Proof.
  unfold config.get_method. destruct (dict_get k d) as [x|]; now eexists.
Qed.

Lemma invoke_quiet (c : database.call)
  (s : database.InfluxDatabase * database.Outside) :
  library (database.calls (snd s)) c = None ->
  database.invoke library c s
  = (Ok tt, (fst s, database.mkOutside (database.calls (snd s) ++ [c])%list
                                       (database.log (snd s)))).
Proof. intros H. unfold database.invoke. now rewrite H. Qed.

(** [Initialize] with a usable configuration and a library that answers:
    the writer is set, no points are written. *)
Lemma Initialize_succeeds (s : database.InfluxDatabase * database.Outside) :
  usable (database.config (fst s)) = true ->
  succeeds_until library (count_writes (database.calls (snd s))) ->
  exists s',
    database.Initialize true library s = (Ok true, s')
    /\ talks_only s s'
    /\ database.writer (fst s') = true
    /\ count_writes (database.calls (snd s'))
       = count_writes (database.calls (snd s))
    /\ writes (database.calls (snd s')) = writes (database.calls (snd s)).
Proof.
  intros U Q. destruct s as [[cfg pr lg cl wr qu] [h lo]]. simpl in *.
  destruct cfg as [| | | | | |d]; try discriminate. simpl in U.
  apply andb_prop in U. destruct U as [U Ub].
  apply andb_prop in U. destruct U as [U Uo].
  apply andb_prop in U. destruct U as [Us Ut].
  destruct (getitem_present d "server" Us) as [server Gs].
  destruct (getitem_present d "token" Ut) as [token Gt].
  destruct (getitem_present d "org" Uo) as [org Go].
  destruct (get_method_dict d "protocol" (PStr "https")) as [protocol Gp].
  destruct (get_method_dict d "port" (PInt 443)) as [port Gr].
  unfold database.Initialize. cbn [negb].
  unfold database.Initialize_try, bind, get, lift. cbn [fst snd database.config].
  rewrite Gp, Gs, Gr, Gt, Go.
  assert (quiet : forall h' c, count_writes h' = count_writes h ->
                               is_write c = false -> library h' c = None).
  { intros h' c E W. apply Q. right. now split. }
  unfold database.invoke at 1. cbn [fst snd database.calls database.log].
  rewrite quiet; [| reflexivity | reflexivity].
  unfold database.update at 1. cbn [fst snd].
  unfold database.invoke at 1. cbn [fst snd database.calls database.log].
  rewrite quiet;
    [| rewrite count_writes_app; cbn [is_write]; lia | reflexivity].
  unfold database.update at 1. cbn [fst snd].
  unfold database.invoke at 1. cbn [fst snd database.calls database.log].
  rewrite quiet;
    [| rewrite !count_writes_app; cbn [is_write]; lia | reflexivity].
  unfold database.update, ret.
  eexists. split; [reflexivity|]. unfold talks_only.
  cbn [fst snd database.calls database.config database.log database.writer].
  split; [split; reflexivity|]. split; [reflexivity|]. split.
  - rewrite !count_writes_app. cbn [is_write]. lia.
  - rewrite !writes_app, !app_nil_r. reflexivity.
Qed.

Lemma succeeds_until_earlier (n m : nat) :
  (m <= n)%nat -> succeeds_until library n -> succeeds_until library m.
Proof.
  intros L Q h c [H|[H W]]; apply Q.
  - left. lia.
  - destruct (Nat.eq_dec m n) as [->|N]; [right; now split | left; lia].
Qed.

(** [not self.writer and not self.Initialize()] under the same
    conditions: there is a writer afterwards. *)
Lemma no_writer_succeeds (s : database.InfluxDatabase * database.Outside) :
  usable (database.config (fst s)) = true ->
  succeeds_until library (count_writes (database.calls (snd s))) ->
  exists s',
    database.no_writer true library s = (Ok false, s')
    /\ talks_only s s'
    /\ database.writer (fst s') = true
    /\ count_writes (database.calls (snd s'))
       = count_writes (database.calls (snd s))
    /\ writes (database.calls (snd s')) = writes (database.calls (snd s)).
Proof.
  intros U Q. unfold database.no_writer. unfold bind at 1. unfold get at 1.
  destruct (database.writer (fst s)) eqn:W; cbn [negb].
  - exists s. unfold ret, talks_only. repeat split; auto.
  - destruct (Initialize_succeeds s U Q) as (s' & E & T & Wr & Cn & Wt).
    unfold bind. rewrite E. exists s'. unfold ret. cbn [negb].
    repeat split; auto; apply T.
Qed.

Lemma usable_bucket (cfg : pyval) :
  usable cfg = true -> exists bucket, getitem cfg "bucket" = Ok bucket.
Proof.
  destruct cfg as [| | | | | |d]; try discriminate. simpl.
  intros U. apply andb_prop in U. destruct U as [_ U].
  now apply getitem_present.
Qed.

(** [Write] when the library takes the points. *)
Lemma Write_succeeds (points : list database.Point)
  (s : database.InfluxDatabase * database.Outside) :
  usable (database.config (fst s)) = true ->
  succeeds_until library (S (count_writes (database.calls (snd s)))) ->
  exists s',
    database.Write true library points s = (Ok true, s')
    /\ talks_only s s'
    /\ database.writer (fst s') = true
    /\ count_writes (database.calls (snd s'))
       = S (count_writes (database.calls (snd s)))
    /\ writes (database.calls (snd s'))
       = (writes (database.calls (snd s)) ++ [points])%list.
Proof.
  intros U Q.
  destruct (no_writer_succeeds s U (succeeds_until_earlier _ _ (Nat.le_succ_diag_r _) Q))
    as (s1 & E & (Tc & Tl) & Wr & Cn & Wt).
  unfold database.Write. cbn [negb]. unfold bind at 1. rewrite E.
  unfold bind at 1. unfold get at 1. unfold bind at 1. unfold lift at 1.
  rewrite Tc. destruct (usable_bucket _ U) as [bucket B]. rewrite B.
  unfold bind at 1. rewrite invoke_quiet; [|apply Q; left; lia].
  unfold ret. eexists. split; [reflexivity|].
  unfold talks_only. cbn [fst snd database.calls database.log].
  repeat split; auto.
  - rewrite count_writes_app. cbn [is_write]. lia.
  - rewrite writes_app. now rewrite Wt.
Qed.

(** [Write] when the library raises at this write. *)
Lemma Write_fails (points : list database.Point) (e : exn)
  (s : database.InfluxDatabase * database.Outside) :
  usable (database.config (fst s)) = true ->
  succeeds_until library (count_writes (database.calls (snd s))) ->
  fails_at library (count_writes (database.calls (snd s))) e ->
  exists s',
    database.Write true library points s = (Raise e, s')
    /\ talks_only s s'
    /\ writes (database.calls (snd s'))
       = (writes (database.calls (snd s)) ++ [points])%list.
Proof.
  intros U Q F.
  destruct (no_writer_succeeds s U Q) as (s1 & E & (Tc & Tl) & Wr & Cn & Wt).
  unfold database.Write. cbn [negb]. unfold bind at 1. rewrite E.
  unfold bind at 1. unfold get at 1. unfold bind at 1. unfold lift at 1.
  rewrite Tc. destruct (usable_bucket _ U) as [bucket B]. rewrite B.
  unfold bind at 1. unfold database.invoke. rewrite (F _ _ _ Cn).
  eexists. split; [reflexivity|]. unfold talks_only.
  cbn [fst snd database.log database.calls].
  split; [split; assumption|]. rewrite writes_app. now rewrite Wt.
Qed.

(** [Flush] of the handle when the library answers. *)
Lemma db_Flush_succeeds (s : database.InfluxDatabase * database.Outside) :
  usable (database.config (fst s)) = true ->
  succeeds_until library (count_writes (database.calls (snd s))) ->
  exists s',
    database.Flush true library s = (Ok tt, s')
    /\ talks_only s s'
    /\ database.writer (fst s') = true
    /\ count_writes (database.calls (snd s'))
       = count_writes (database.calls (snd s))
    /\ writes (database.calls (snd s')) = writes (database.calls (snd s)).
Proof.
  intros U Q.
  destruct (no_writer_succeeds s U Q) as (s1 & E & (Tc & Tl) & Wr & Cn & Wt).
  unfold database.Flush. cbn [negb]. unfold bind at 1. rewrite E.
  rewrite invoke_quiet; [|apply Q; right; split; [exact Cn | reflexivity]].
  eexists. split; [reflexivity|].
  unfold talks_only. cbn [fst snd database.calls database.log].
  repeat split; auto.
  - rewrite count_writes_app. cbn [is_write]. lia.
  - rewrite writes_app, app_nil_r. exact Wt.
Qed.

End Backend.

(** *** Flushing *)

Section Flushing.
Import Spec.

Variable disk : string -> config.file.
Variable library : list database.call -> database.call -> option exn.

Lemma obtain_database_ready (p : metrics.MetricPipeline) :
  ready disk p ->
  exists p1 db,
    metrics.obtain_database disk true p = (Ok tt, p1)
    /\ metrics.database p1 = Some db
    /\ usable (database.config db) = true
    /\ keeps p p1
    /\ metrics.outside p1 = metrics.outside p.
Proof.
  unfold ready, metrics.obtain_database. unfold bind at 1. unfold get at 1.
  destruct (metrics.database p) as [db|] eqn:D.
  - intros U. exists p, db. unfold ret, keeps. repeat split; auto.
  - intros (cfg & c' & G & U).
    unfold bind at 1. unfold metrics.on_config. rewrite G.
    cbn [fst snd eq_str String.eqb Ascii.eqb Bool.eqb].
    unfold bind, lift, database.init, metrics.set_database. cbn.
    eexists. eexists. split; [reflexivity|]. unfold keeps. cbn.
    repeat split; auto.
Qed.

Lemma on_database_run {A : Type}
  (m : M (database.InfluxDatabase * database.Outside) A)
  (p : metrics.MetricPipeline) (db : database.InfluxDatabase)
  (r : result A) (s' : database.InfluxDatabase * database.Outside) :
  metrics.database p = Some db ->
  m (db, metrics.outside p) = (r, s') ->
  exists p',
    metrics.on_database m p = (r, p')
    /\ metrics.database p' = Some (fst s')
    /\ metrics.outside p' = snd s'
    /\ keeps p p'
    /\ metrics.config p' = metrics.config p.
Proof.
  intros D E. unfold metrics.on_database. rewrite D, E.
  eexists. split; [reflexivity|]. unfold keeps. cbn. repeat split.
Qed.

Lemma keeps_trans (p q r : metrics.MetricPipeline) :
  keeps p q -> keeps q r -> keeps p r.
Proof. unfold keeps. intuition congruence. Qed.

(** One batch goes through. *)
Lemma send_succeeds (points : list database.Point) (p : metrics.MetricPipeline) :
  ready disk p ->
  succeeds_until library
    (S (count_writes (database.calls (metrics.outside p)))) ->
  exists p1,
    metrics.send disk true library points p = (Ok tt, p1)
    /\ keeps p p1
    /\ ready disk p1
    /\ count_writes (database.calls (metrics.outside p1))
       = S (count_writes (database.calls (metrics.outside p)))
    /\ writes (database.calls (metrics.outside p1))
       = (writes (database.calls (metrics.outside p)) ++ [points])%list.
Proof.
  intros R Q.
  destruct (obtain_database_ready p R) as (p1 & db & E1 & D1 & U1 & K1 & O1).
  destruct (Write_succeeds library points (db, metrics.outside p1))
    as (s2 & E2 & (Tc2 & _) & _ & C2 & W2); [exact U1 | now rewrite O1 |].
  destruct (on_database_run _ p1 db _ s2 D1 E2) as (p2 & F2 & D2 & O2 & K2 & _).
  cbn [fst snd] in Tc2, C2, W2.
  destruct (db_Flush_succeeds library (fst s2, metrics.outside p2))
    as (s3 & E3 & (Tc3 & _) & _ & C3 & W3).
  { cbn [fst]. now rewrite Tc2. }
  { cbn [snd]. rewrite O2, C2, O1.
    eapply succeeds_until_earlier; [|exact Q]. lia. }
  destruct (on_database_run _ p2 (fst s2) _ s3 D2 E3)
    as (p3 & F3 & D3 & O3 & K3 & _).
  cbn [fst snd] in Tc3, C3, W3.
  unfold metrics.send. unfold bind at 1. rewrite E1.
  unfold bind at 1. rewrite F2. rewrite F3.
  exists p3. split; [reflexivity|].
  split; [eapply keeps_trans; [exact K1|eapply keeps_trans; eassumption]|].
  split; [unfold ready; rewrite D3; congruence|].
  rewrite O3, C3, W3, O2, C2, W2, O1. split; reflexivity.
Qed.

(** The library raises at the write of this batch. *)
Lemma send_fails (points : list database.Point) (e : exn)
  (p : metrics.MetricPipeline) :
  ready disk p ->
  succeeds_until library (count_writes (database.calls (metrics.outside p))) ->
  fails_at library (count_writes (database.calls (metrics.outside p))) e ->
  exists p1,
    metrics.send disk true library points p = (Raise e, p1)
    /\ keeps p p1
    /\ writes (database.calls (metrics.outside p1))
       = (writes (database.calls (metrics.outside p)) ++ [points])%list.
Proof.
  intros R Q F.
  destruct (obtain_database_ready p R) as (p1 & db & E1 & D1 & U1 & K1 & O1).
  destruct (Write_fails library points e (db, metrics.outside p1))
    as (s2 & E2 & _ & W2); [exact U1 | now rewrite O1 | now rewrite O1 |].
  destruct (on_database_run _ p1 db _ s2 D1 E2) as (p2 & F2 & _ & O2 & K2 & _).
  unfold metrics.send. unfold bind at 1. rewrite E1.
  unfold bind at 1. rewrite F2.
  exists p2. split; [reflexivity|].
  split; [eapply keeps_trans; eassumption|].
  cbn [snd] in W2. now rewrite O2, W2, O1.
Qed.

(** Facts on batches. *)

Lemma firstn_min {A : Type} (b : nat) (q : list A) :
  firstn (Nat.min (List.length q) b) q = firstn b q.
Proof.
  destruct (Nat.le_gt_cases b (List.length q)) as [H|H].
  - now rewrite Nat.min_r.
  - rewrite Nat.min_l by lia. rewrite firstn_all.
    symmetry. apply firstn_all2. lia.
Qed.

Lemma skipn_min {A : Type} (b : nat) (q : list A) :
  skipn (Nat.min (List.length q) b) q = skipn b q.
Proof.
  destruct (Nat.le_gt_cases b (List.length q)) as [H|H].
  - now rewrite Nat.min_r.
  - rewrite Nat.min_l by lia. rewrite skipn_all.
    symmetry. apply skipn_all2. lia.
Qed.

Lemma chunks_from_fuel {A : Type} (b : nat) :
  (1 <= b)%nat ->
  forall fuel fuel' (q : list A),
    (List.length q <= fuel)%nat -> (List.length q <= fuel')%nat ->
    chunks_from fuel b q = chunks_from fuel' b q.
Proof.
  intros B. induction fuel as [|fuel IH]; intros fuel' q L L'.
  - destruct q; [now destruct fuel' | simpl in L; lia].
  - destruct q as [|x r]; [now destruct fuel'|].
    destruct fuel' as [|fuel']; [simpl in L'; lia|].
    cbn [chunks_from]. f_equal.
    assert (S1 : (List.length (skipn b (x :: r)) <= List.length r)%nat).
    { rewrite length_skipn. cbn [List.length]. lia. }
    simpl in L, L'. apply IH; lia.
Qed.

Lemma chunks_cons {A : Type} (b : nat) (q : list A) :
  (1 <= b)%nat -> q <> [] ->
  chunks b q = firstn b q :: chunks b (skipn b q).
Proof.
  intros B N. unfold chunks. destruct q as [|x r]; [contradiction|].
  cbn [chunks_from List.length]. f_equal.
  apply chunks_from_fuel; [exact B | | lia].
  rewrite length_skipn. cbn [List.length]. lia.
Qed.

(** The number of batches is the length divided by the batch size,
    rounded up. *)
Lemma chunks_count {A : Type} (b : nat) :
  (1 <= b)%nat ->
  forall fuel (q : list A),
    (List.length q <= fuel)%nat ->
    List.length (chunks b q) = ((List.length q + b - 1) / b)%nat.
Proof.
  intros B. induction fuel as [|fuel IH]; intros q L.
  - destruct q; [|simpl in L; lia]. simpl.
    symmetry. apply Nat.div_small. lia.
  - destruct q as [|x r].
    + simpl. symmetry. apply Nat.div_small. lia.
    + rewrite chunks_cons by (auto; discriminate).
      cbn [List.length]. rewrite IH
        by (rewrite length_skipn; cbn [List.length] in *; lia).
      rewrite length_skipn. cbn [List.length].
      destruct (Nat.le_gt_cases (S (List.length r)) b) as [H|H].
      * replace (S (List.length r) - b)%nat with O by lia.
        replace ((0 + b - 1) / b)%nat with O
          by (symmetry; apply Nat.div_small; lia).
        apply (Nat.div_unique _ _ 1 (List.length r)); lia.
      * replace (S (List.length r) + b - 1)%nat
          with ((S (List.length r) - b + b - 1) + 1 * b)%nat by lia.
        rewrite Nat.div_add by lia. lia.
Qed.

Lemma all_have_fields (q : list metrics.Metric) :
  Forall (fun metric => metrics.fields metric <> []) q ->
  filter (fun metric => negb (List.length (metrics.fields metric) =? 0)%nat) q
  = q.
Proof.
  induction 1 as [|m r H _ IH]; simpl; [reflexivity|].
  destruct (metrics.fields m); [contradiction|]. simpl. now rewrite IH.
Qed.

(** The batch [Flush] takes from a queue of records that all have fields,
    with a batch size of one or more. *)
Lemma batch_of_queue (q : list metrics.Metric) (bs : Z) :
  1 <= bs ->
  Forall (fun metric => metrics.fields metric <> []) q ->
  let count := Z.min (Z.of_nat (List.length q)) bs in
  metrics.batch_points q count = map metrics.encode (firstn (Z.to_nat bs) q)
  /\ skipn (Z.to_nat count) q = skipn (Z.to_nat bs) q.
Proof.
  intros B F count.
  assert (C : Z.to_nat count = Nat.min (List.length q) (Z.to_nat bs)).
  { unfold count. rewrite Z2Nat.inj_min, Nat2Z.id. reflexivity. }
  unfold metrics.batch_points. rewrite C, firstn_min, skipn_min.
  split; [|reflexivity]. f_equal. apply all_have_fields.
  apply Forall_forall. intros m I.
  assert (I' : In m q).
  { rewrite <- (firstn_skipn (Z.to_nat bs) q). apply in_or_app. now left. }
  clear I. revert m I'. now apply Forall_forall.
Qed.

Lemma Forall_skipn {A : Type} (P : A -> Prop) (n : nat) (q : list A) :
  Forall P q -> Forall P (skipn n q).
Proof.
  intros F. rewrite <- (firstn_skipn n q) in F.
  now apply Forall_app in F.
Qed.

(** One round of the loop of [Flush] in which the batch goes through. *)
Lemma Flush_round (fuel : nat) (sent : Z) (p : metrics.MetricPipeline) :
  metrics.queue p <> [] ->
  1 <= metrics.batchSize p ->
  Forall has_fields (metrics.queue p) ->
  ready disk p ->
  succeeds_until library
    (S (count_writes (database.calls (metrics.outside p)))) ->
  let b := Z.to_nat (metrics.batchSize p) in
  exists p2,
    metrics.Flush_loop disk true library (S fuel) sent p
    = metrics.Flush_loop disk true library fuel
        (sent + Z.of_nat (Nat.min b (List.length (metrics.queue p)))) p2
    /\ metrics.queue p2 = skipn b (metrics.queue p)
    /\ metrics.batchSize p2 = metrics.batchSize p
    /\ ready disk p2
    /\ count_writes (database.calls (metrics.outside p2))
       = S (count_writes (database.calls (metrics.outside p)))
    /\ writes (database.calls (metrics.outside p2))
       = (writes (database.calls (metrics.outside p))
          ++ [map metrics.encode (firstn b (metrics.queue p))])%list.
Proof.
  intros N B F R Q b.
  destruct (batch_of_queue (metrics.queue p) (metrics.batchSize p) B F)
    as (Pt & Sk).
  destruct (send_succeeds (map metrics.encode (firstn b (metrics.queue p))) p R Q)
    as (p1 & E & (Kq & Kb & Ks & Kl) & R1 & C1 & W1).
  cbn [metrics.Flush_loop].
  assert (Em : metrics.IsEmpty p = false).
  { unfold metrics.IsEmpty. destruct (metrics.queue p); [contradiction | reflexivity]. }
  rewrite Em, Pt. fold b. rewrite E, Kq, Sk. fold b.
  rewrite length_map, length_firstn.
  eexists. split; [reflexivity|].
  unfold metrics.set_queue. cbn.
  repeat split; auto.
Qed.

(** The loop when the library answers until the queue is empty. *)
Lemma Flush_loop_succeeds (fuel : nat) :
  forall (sent : Z) (p : metrics.MetricPipeline),
    let b := Z.to_nat (metrics.batchSize p) in
    1 <= metrics.batchSize p ->
    Forall has_fields (metrics.queue p) ->
    ready disk p ->
    (List.length (metrics.queue p) < fuel)%nat ->
    succeeds_until library
      (count_writes (database.calls (metrics.outside p))
       + List.length (chunks b (metrics.queue p))) ->
    exists p',
      metrics.Flush_loop disk true library fuel sent p
      = Some (Ok (true, sent + Z.of_nat (List.length (metrics.queue p))), p')
      /\ metrics.queue p' = []
      /\ writes (database.calls (metrics.outside p'))
         = (writes (database.calls (metrics.outside p))
            ++ map (map metrics.encode) (chunks b (metrics.queue p)))%list.
Proof.
  induction fuel as [|fuel IH]; intros sent p b B F R L Q; [lia|].
  assert (Bn : (1 <= b)%nat) by (unfold b; lia).
  destruct (metrics.queue p) as [|x r] eqn:Eq.
  - exists p. cbn [metrics.Flush_loop]. unfold metrics.IsEmpty. rewrite Eq.
    cbn. rewrite Z.add_0_r, app_nil_r. repeat split; auto.
  - assert (N : metrics.queue p <> []) by (rewrite Eq; discriminate).
    rewrite <- Eq in *. rewrite (chunks_cons b _ Bn N) in Q |- *.
    cbn [List.length] in Q.
    destruct (Flush_round fuel sent p N B F R) as (p2 & E & Q2 & B2 & R2 & C2 & W2).
    { eapply succeeds_until_earlier; [|exact Q]. lia. }
    fold b in E, Q2, W2.
    destruct (IH (sent + Z.of_nat (Nat.min b (List.length (metrics.queue p)))) p2)
      as (p' & E' & Q' & W').
    + now rewrite B2.
    + rewrite Q2. now apply Forall_skipn.
    + exact R2.
    + rewrite Q2, length_skipn. rewrite Eq in *. cbn [List.length] in *. lia.
    + rewrite B2, Q2, C2. fold b.
      eapply succeeds_until_earlier; [|exact Q]. lia.
    + exists p'. rewrite E, E'. rewrite B2, Q2 in *. fold b in W'.
      split; [|split; [exact Q'|]].
      * rewrite length_skipn, <- Z.add_assoc.
        replace (Z.of_nat (Nat.min b (List.length (metrics.queue p)))
                 + Z.of_nat (List.length (metrics.queue p) - b))
          with (Z.of_nat (List.length (metrics.queue p))) by lia.
        reflexivity.
      * rewrite W', W2, <- app_assoc. reflexivity.
Qed.

Lemma chunks_nonempty {A : Type} (b : nat) (q : list A) :
  (0 < List.length (chunks b q))%nat -> q <> [].
Proof. destruct q; [simpl; lia | discriminate]. Qed.

(** The loop when the library answers for [k] batches and raises [e],
    which is no [RuntimeError], at the write of the next one. *)
Lemma Flush_loop_fails (e : exn) :
  metrics.is_RuntimeError e = false ->
  forall (k fuel : nat) (sent : Z) (p : metrics.MetricPipeline),
    let b := Z.to_nat (metrics.batchSize p) in
    1 <= metrics.batchSize p ->
    Forall has_fields (metrics.queue p) ->
    ready disk p ->
    (k < fuel)%nat ->
    (k < List.length (chunks b (metrics.queue p)))%nat ->
    succeeds_until library
      (count_writes (database.calls (metrics.outside p)) + k) ->
    fails_at library
      (count_writes (database.calls (metrics.outside p)) + k) e ->
    exists p',
      metrics.Flush_loop disk true library fuel sent p
      = Some (Ok (false, sent + Z.of_nat k * metrics.batchSize p), p')
      /\ metrics.queue p' = skipn (k * b) (metrics.queue p)
      /\ writes (database.calls (metrics.outside p'))
         = (writes (database.calls (metrics.outside p))
            ++ map (map metrics.encode)
                   (firstn (S k) (chunks b (metrics.queue p))))%list.
Proof.
  intros NR. induction k as [|k IH]; intros fuel sent p b B F R L K Q X.
  - destruct fuel as [|fuel]; [lia|].
    assert (Bn : (1 <= b)%nat) by (unfold b; lia).
    assert (N : metrics.queue p <> []) by (apply (chunks_nonempty b); lia).
    rewrite Nat.add_0_r in Q, X.
    destruct (batch_of_queue (metrics.queue p) (metrics.batchSize p) B F)
      as (Pt & _).
    destruct (send_fails
                (metrics.batch_points (metrics.queue p)
                   (Z.min (Z.of_nat (List.length (metrics.queue p)))
                          (metrics.batchSize p))) e p R Q X)
      as (p1 & E & (Kq & _) & W1).
    cbn [metrics.Flush_loop].
    assert (Em : metrics.IsEmpty p = false).
    { unfold metrics.IsEmpty.
      destruct (metrics.queue p); [contradiction | reflexivity]. }
    rewrite Em, E, NR.
    eexists. split; [cbn [Z.of_nat Z.mul]; rewrite Z.add_0_r; reflexivity|].
    destruct (logs_only_emit (metrics.report e) p1)
      as (_ & (_ & _ & _ & Lq & _ & _ & Lc)).
    split; [cbn [skipn Nat.mul]; congruence|].
    rewrite Lc, W1, Pt, (chunks_cons b _ Bn N). reflexivity.
  - destruct fuel as [|fuel]; [lia|].
    assert (Bn : (1 <= b)%nat) by (unfold b; lia).
    assert (N : metrics.queue p <> []) by (apply (chunks_nonempty b); lia).
    rewrite (chunks_cons b _ Bn N) in K. cbn [List.length] in K.
    destruct (Flush_round fuel sent p N B F R) as (p2 & E & Q2 & B2 & R2 & C2 & W2).
    { eapply succeeds_until_earlier; [|exact Q]. lia. }
    fold b in E, Q2, W2.
    assert (N2 : skipn b (metrics.queue p) <> [])
      by (apply (chunks_nonempty b); lia).
    assert (Lb : (b < List.length (metrics.queue p))%nat).
    { destruct (Nat.le_gt_cases (List.length (metrics.queue p)) b) as [H|H];
        [|exact H].
      rewrite skipn_all2 in N2 by exact H. contradiction. }
    destruct (IH fuel (sent + Z.of_nat (Nat.min b (List.length (metrics.queue p)))) p2)
      as (p' & E' & Q' & W').
    + now rewrite B2.
    + rewrite Q2. now apply Forall_skipn.
    + exact R2.
    + lia.
    + rewrite B2, Q2. fold b. lia.
    + rewrite C2. eapply succeeds_until_earlier; [|exact Q]. lia.
    + rewrite C2. replace (S (count_writes (database.calls (metrics.outside p))) + k)%nat
        with (count_writes (database.calls (metrics.outside p)) + S k)%nat by lia.
      exact X.
    + exists p'. rewrite E, E'. rewrite B2, Q2 in *. fold b in Q', W'.
      split; [|split].
      * rewrite Nat.min_l by lia.
        replace (sent + Z.of_nat b + Z.of_nat k * metrics.batchSize p)
          with (sent + Z.of_nat (S k) * metrics.batchSize p)
          by (unfold b; lia).
        reflexivity.
      * rewrite Q', skipn_skipn. f_equal. lia.
      * rewrite W', W2, <- app_assoc, (chunks_cons b _ Bn N). reflexivity.
Qed.

Lemma chunks_at_most {A : Type} (b : nat) (q : list A) :
  (1 <= b)%nat -> (List.length (chunks b q) <= List.length q)%nat.
Proof.
  intros B. rewrite (chunks_count b B (List.length q) q (le_n _)).
  destruct q as [|x r]; cbn [List.length].
  - rewrite Nat.div_small; lia.
  - apply Nat.Div0.div_le_upper_bound. nia.
Qed.

(** The batches in order: batch [i] is the next [b] records after the
    first [i * b], fewer when fewer remain. *)
Lemma chunks_nth {A : Type} (b : nat) :
  (1 <= b)%nat ->
  forall (i : nat) (q : list A),
    (i < List.length (chunks b q))%nat ->
    nth i (chunks b q) [] = firstn b (skipn (i * b) q).
Proof.
  intros B. induction i as [|i IH]; intros q L.
  - rewrite chunks_cons by (auto; apply (chunks_nonempty b); lia).
    reflexivity.
  - assert (N : q <> []) by (apply (chunks_nonempty b); lia).
    rewrite (chunks_cons b q B N) in L |- *. cbn [List.length nth] in *.
    rewrite IH by lia. rewrite skipn_skipn. do 2 f_equal. lia.
Qed.

End Flushing.

(** Batches, when the client can be built.  On a running pipeline with
    a batch size [b] of one or more, a queue of [n] records that all have
    fields, and a backend that can be reached ([ready]), with enough
    rounds allowed:
    - when the backend answers every call, [Flush] returns [(True, n)],
      leaves the queue empty, and has written the records batch by batch
      in queue order, [ceil(n/b)] batches in all, batch [i] being the
      next [b] records after the first [i * b] (fewer when fewer remain);
    - when the backend answers for [k] batches and raises anything but a
      [RuntimeError] at the write of the next, [Flush] returns
      [(False, k * b)] and the queue holds the records after the
      first [k * b], in order; the writer was handed those [k] batches
      and the one it refused, and nothing after it. *)
Theorem Flush_batches (disk : string -> config.file)
  (library : list database.call -> database.call -> option exn)
  (p : metrics.MetricPipeline) (fuel : nat) :
  metrics.shutdown p = false ->
  1 <= metrics.batchSize p ->
  Forall Spec.has_fields (metrics.queue p) ->
  Spec.ready disk p ->
  (List.length (metrics.queue p) < fuel)%nat ->
  let b := Z.to_nat (metrics.batchSize p) in
  let n := List.length (metrics.queue p) in
  let batches := Spec.chunks b (metrics.queue p) in
  let w := Spec.count_writes (database.calls (metrics.outside p)) in
  ((forall h c, library h c = None) ->
   exists p',
     metrics.Flush disk true library fuel p = Some (Ok (true, Z.of_nat n), p')
     /\ metrics.queue p' = []
     /\ Spec.writes (database.calls (metrics.outside p'))
        = (Spec.writes (database.calls (metrics.outside p))
           ++ map (map metrics.encode) batches)%list)
  /\ List.length batches = ((n + b - 1) / b)%nat
  /\ (forall i, (i < List.length batches)%nat ->
                nth i batches [] = firstn b (skipn (i * b) (metrics.queue p)))
  /\ (forall k e,
         (k < List.length batches)%nat ->
         metrics.is_RuntimeError e = false ->
         Spec.succeeds_until library (w + k) ->
         Spec.fails_at library (w + k) e ->
         exists p',
           metrics.Flush disk true library fuel p
           = Some (Ok (false, Z.of_nat k * metrics.batchSize p), p')
           /\ metrics.queue p' = skipn (k * b) (metrics.queue p)
           /\ Spec.writes (database.calls (metrics.outside p'))
              = (Spec.writes (database.calls (metrics.outside p))
                 ++ map (map metrics.encode) (firstn (S k) batches))%list).
Proof.
  intros S B F R L b n batches w.
  assert (Bn : (1 <= b)%nat) by (unfold b; lia).
  unfold metrics.Flush. rewrite S.
  split; [|split; [|split]].
  - intros Up.
    destruct (Flush_loop_succeeds disk library fuel 0 p B F R L)
      as (p' & E & Q & W).
    { intros h c _. apply Up. }
    exists p'. rewrite E. repeat split; auto.
  - apply (chunks_count b Bn n). apply le_n.
  - intros i I. now apply chunks_nth.
  - intros k e K NR Q X.
    destruct (Flush_loop_fails disk library e NR k fuel 0 p B F R)
      as (p' & E & Q' & W'); auto.
    + pose proof (chunks_at_most b (metrics.queue p) Bn). fold batches in H.
      lia.
    + exists p'. rewrite E. split; [reflexivity|]. split; [exact Q' | exact W'].
Qed.

Lemma Flush_batches_witness :
  (exists p',
      metrics.Flush Examples.disk true Examples.always_up 26 Examples.backlog
      = Some (Ok (true, 25), p')
      /\ metrics.queue p' = []
      /\ map (@List.length _)
             (Spec.writes (database.calls (metrics.outside p')))
         = [10; 10; 5]%nat)
  /\
  (exists p',
      metrics.Flush Examples.disk true Examples.down_at_second 26
        Examples.backlog
      = Some (Ok (false, 10), p')
      /\ List.length (metrics.queue p') = 15%nat
      /\ map (@List.length _)
             (Spec.writes (database.calls (metrics.outside p')))
         = [10; 10]%nat).
Proof.
  assert (F : Forall Spec.has_fields (metrics.queue Examples.backlog)).
  { apply Forall_forall. intros m I. apply repeat_spec in I. subst m.
    discriminate. }
  assert (R : Spec.ready Examples.disk Examples.backlog).
  { eexists. eexists. split; reflexivity. }
  assert (L : (List.length (metrics.queue Examples.backlog) < 26)%nat)
    by (simpl; lia).
  split.
  - destruct (Flush_batches Examples.disk Examples.always_up Examples.backlog
                26 eq_refl ltac:(simpl; lia) F R L) as (Up & _).
    destruct (Up (fun _ _ => eq_refl)) as (p' & E & Q & W).
    exists p'. split; [exact E|]. split; [exact Q|]. rewrite W. reflexivity.
  - destruct (Flush_batches Examples.disk Examples.down_at_second
                Examples.backlog 26 eq_refl ltac:(simpl; lia) F R L)
      as (_ & _ & _ & Down).
    destruct (Down 1%nat Timeout) as (p' & E & Q & W).
    + simpl. lia.
    + reflexivity.
    + intros h c H. unfold Examples.down_at_second. simpl in H.
      destruct H as [H|[H W]].
      * replace (Spec.count_writes h =? 1)%nat with false
          by (symmetry; apply Nat.eqb_neq; lia).
        now rewrite andb_false_r.
      * now rewrite W.
    + intros h bucket record H. unfold Examples.down_at_second.
      simpl in H. rewrite H. reflexivity.
    + exists p'. split; [exact E|]. rewrite Q, W. split; reflexivity.
Defined.

(** C7 at the failing input.  Twenty-five records wait, the batch size
    is ten, and the backend fails when the client is built.
    [InfluxDatabase.Initialize] logs that failure and returns [False],
    [InfluxDatabase.Write] returns [False] in turn, and
    [MetricPipeline.Flush] does not look at what [Write] returns: no
    exception reaches it, so it counts the batch as sent and removes it.
    When the failure is there at the first attempt only, the client is
    built by the [Flush] of the handle that follows, the two later batches
    are written, and [Flush] returns [(True, 25)] on an empty queue: the
    first ten records were never written.  When the client can never be
    built, [Flush] returns [(True, 25)] on an empty queue and nothing was
    written at all.  The specification has [(False, 0)] and the
    twenty-five records still queued. *)
Theorem Flush_counts_a_lost_batch :
  (let r := metrics.Flush Examples.disk true Examples.connects_at_second_try
              26 Examples.backlog in
   option_map fst r = Some (Ok (true, 25))
   /\ option_map (fun x => metrics.queue (snd x)) r = Some []
   /\ option_map
        (fun x => map (@List.length _)
                      (writes (database.calls (metrics.outside (snd x))))) r
      = Some [10; 5]%nat
   /\ option_map (fun x => database.log (metrics.outside (snd x))) r
      = Some [database.FailedToInitiate ConnectionError])
  /\
  (let r := metrics.Flush Examples.disk true Examples.never_connects 26
              Examples.backlog in
   option_map fst r = Some (Ok (true, 25))
   /\ option_map (fun x => metrics.queue (snd x)) r = Some []
   /\ option_map
        (fun x => writes (database.calls (metrics.outside (snd x)))) r
      = Some []).
Proof. cbv zeta. repeat split; vm_compute; reflexivity. Qed.

(** *** Reloading *)

Section Reloading.
Import Spec.

Variable disk : string -> config.file.
Variable INFLUXDB_SUPPORTED : bool.
Variable library : list database.call -> database.call -> option exn.

Lemma keeps_refl (p : metrics.MetricPipeline) : keeps p p.
Proof. repeat split. Qed.

Lemma keeping_bind {A B : Type} (m : M metrics.MetricPipeline A)
  (k : A -> M metrics.MetricPipeline B) :
  keeping m -> (forall a, keeping (k a)) -> keeping (bind m k).
Proof.
  intros Hm Hk p. unfold bind. pose proof (Hm p) as K.
  destruct (m p) as [[a|e] p1]; simpl in *; [|exact K].
  eapply keeps_trans; [exact K | apply Hk].
Qed.

Lemma keeping_on_config {A : Type} (m : M config.Config A) :
  keeping (metrics.on_config m).
Proof.
  intros p. unfold metrics.on_config.
  destruct (m (metrics.config p)). repeat split.
Qed.

Lemma keeping_on_database {A : Type}
  (m : M (database.InfluxDatabase * database.Outside) A) :
  keeping (metrics.on_database m).
Proof.
  intros p. unfold metrics.on_database.
  destruct (metrics.database p) as [db|]; [|apply keeps_refl].
  destruct (m (db, metrics.outside p)). repeat split.
Qed.

Lemma keeping_set_database (d : option database.InfluxDatabase) :
  keeping (metrics.set_database d).
Proof. intros p. repeat split. Qed.

Lemma keeping_emit (l : database.logline) : keeping (metrics.emit l).
Proof.
  intros p. destruct (logs_only_emit l p) as (_ & _ & Hl & Hb & Hq & _ & Hs & _).
  repeat split; auto.
Qed.

Lemma keeping_send (points : list database.Point) :
  keeping (metrics.send disk INFLUXDB_SUPPORTED library points).
Proof.
  unfold metrics.send, metrics.obtain_database.
  repeat first
    [ apply keeping_bind; intros
    | apply keeping_on_config
    | apply keeping_on_database
    | apply keeping_set_database
    | match goal with
      | |- keeping (match ?x with _ => _ end) => destruct x
      | |- keeping (if ?b then _ else _) => destruct b
      | |- keeping _ => intros ?; apply keeps_refl
      end ].
Qed.

(** With a batch size of one or more the loop of [Flush] ends within one
    round more than there are records, whatever the backend does. *)
Lemma Flush_loop_total (fuel : nat) :
  forall (sent : Z) (p : metrics.MetricPipeline),
    1 <= metrics.batchSize p ->
    (List.length (metrics.queue p) < fuel)%nat ->
    exists r p',
      metrics.Flush_loop disk INFLUXDB_SUPPORTED library fuel sent p
      = Some (r, p').
Proof.
  induction fuel as [|fuel IH]; intros sent p B L; [lia|].
  cbn [metrics.Flush_loop].
  destruct (metrics.IsEmpty p) eqn:Em; [now eexists; eexists|].
  pose proof (keeping_send
                (metrics.batch_points (metrics.queue p)
                   (Z.min (Z.of_nat (List.length (metrics.queue p)))
                          (metrics.batchSize p))) p) as (Kq & Kb & _).
  destruct (metrics.send _ _ _ _ p) as [[[]|e] p1]; cbn [snd] in Kq, Kb.
  - apply IH.
    + cbn. now rewrite Kb.
    + cbn. rewrite Kq, length_skipn.
      unfold metrics.IsEmpty in Em. apply Nat.eqb_neq in Em. lia.
  - destruct (metrics.is_RuntimeError e); now eexists; eexists.
Qed.

Lemma Flush_total (fuel : nat) (p : metrics.MetricPipeline) :
  1 <= metrics.batchSize p ->
  (List.length (metrics.queue p) < fuel)%nat ->
  exists r p',
    metrics.Flush disk INFLUXDB_SUPPORTED library fuel p = Some (r, p').
Proof.
  intros B L. unfold metrics.Flush.
  destruct (metrics.shutdown p); [now eexists; eexists|].
  now apply Flush_loop_total.
Qed.

Lemma emit_result (l : database.logline) (p : metrics.MetricPipeline) :
  metrics.emit l p = (Ok tt, snd (metrics.emit l p)).
Proof. unfold metrics.emit. now destruct (metrics.logger p). Qed.

End Reloading.

Section Reload.
Import Spec.

Variable disk : string -> config.file.
Variable library : list database.call -> database.call -> option exn.




End Reload.



(** *** The queue over any sequence of calls *)

Section CallTraces.
Import Spec.

Variable Q : list database.Point -> Prop.

Lemma calls_extend_refl (h : list database.call) : calls_extend Q h h.
Proof. exists []. now rewrite app_nil_r. Qed.

Lemma calls_extend_trans (h1 h2 h3 : list database.call) :
  calls_extend Q h1 h2 -> calls_extend Q h2 h3 -> calls_extend Q h1 h3.
Proof.
  intros (a & -> & A) (b & -> & B). exists (a ++ b)%list.
  split; [now rewrite app_assoc | now apply Forall_app].
Qed.

Section Handle.

Variable library : list database.call -> database.call -> option exn.

Lemma talking_bind {A B : Type}
  (m : M (database.InfluxDatabase * database.Outside) A)
  (k : A -> M (database.InfluxDatabase * database.Outside) B) :
  talking Q m -> (forall a, talking Q (k a)) -> talking Q (bind m k).
Proof.
  intros Hm Hk s. unfold bind. specialize (Hm s).
  destruct (m s) as [[a|e] s1]; cbn [snd] in *; [|exact Hm].
  eapply calls_extend_trans; [exact Hm | apply Hk].
Qed.

Lemma talking_quiet {A : Type}
  (m : M (database.InfluxDatabase * database.Outside) A) :
  (forall s, database.calls (snd (snd (m s))) = database.calls (snd s)) ->
  talking Q m.
Proof. intros H s. rewrite H. apply calls_extend_refl. Qed.

Lemma talking_invoke (c : database.call) :
  match c with
  | database.writer_write _ record => Q record
  | _ => True
  end ->
  talking Q (database.invoke library c).
Proof.
  intros H s. exists [c]. unfold database.invoke.
  destruct (library (database.calls (snd s)) c); cbn; split; auto.
Qed.

Lemma talking_emit (l : database.logline) : talking Q (database.emit l).
Proof.
  apply talking_quiet. intros s. unfold database.emit.
  now destruct (database.logger (fst s)).
Qed.

Lemma talking_Initialize (supported : bool) :
  talking Q (database.Initialize supported library).
Proof.
  unfold database.Initialize. destruct (negb supported).
  { now apply talking_quiet. }
  intros s.
  assert (T : talking Q (database.Initialize_try library)).
  { unfold database.Initialize_try.
    repeat first
      [ apply talking_bind; intros
      | apply talking_invoke; exact I
      | now apply talking_quiet ]. }
  specialize (T s).
  destruct (database.Initialize_try library s) as [[[]|e] s1]; cbn [snd] in T.
  - eapply calls_extend_trans; [exact T|].
    revert s1 T. generalize s. clear s. intros _ s1 _. revert s1.
    change (talking Q
              (database.invoke library database.write_api ;;
               database.update
                 (fun db => database.mkInfluxDatabase
                              (database.config db) (database.precision db)
                              (database.logger db) (database.client db) true
                              (database.query db)) ;;
               database.invoke library database.query_api ;;
               database.update
                 (fun db => database.mkInfluxDatabase
                              (database.config db) (database.precision db)
                              (database.logger db) (database.client db)
                              (database.writer db) true) ;;
               ret true)%eff).
    repeat first
      [ apply talking_bind; intros
      | apply talking_invoke; exact I
      | now apply talking_quiet ].
  - destruct (database.is_KeyError e); [exact T|].
    eapply calls_extend_trans; [exact T|].
    revert s1 T. generalize s. clear s. intros _ s1 _. revert s1.
    change (talking Q
              (database.emit (database.FailedToInitiate e) ;;
               database.update
                 (fun db => database.mkInfluxDatabase
                              (database.config db) (database.precision db)
                              (database.logger db) false (database.writer db)
                              (database.query db)) ;;
               ret false)%eff).
    repeat first
      [ apply talking_bind; intros
      | apply talking_emit
      | now apply talking_quiet ].
Qed.

Lemma talking_no_writer (supported : bool) :
  talking Q (database.no_writer supported library).
Proof.
  unfold database.no_writer. apply talking_bind; [now apply talking_quiet|].
  intros s. destruct (negb (database.writer (fst s)));
    [|now apply talking_quiet].
  apply talking_bind; [apply talking_Initialize|].
  intros ok. now apply talking_quiet.
Qed.

Lemma talking_Write (supported : bool) (points : list database.Point) :
  Q points -> talking Q (database.Write supported library points).
Proof.
  intros H. unfold database.Write. destruct (negb supported);
    [now apply talking_quiet|].
  apply talking_bind; [apply talking_no_writer|]. intros missing.
  destruct missing; [now apply talking_quiet|].
  repeat first
    [ apply talking_bind; intros
    | apply talking_invoke; exact H
    | now apply talking_quiet ].
Qed.

Lemma talking_Flush (supported : bool) :
  talking Q (database.Flush supported library).
Proof.
  unfold database.Flush. destruct (negb supported);
    [now apply talking_quiet|].
  apply talking_bind; [apply talking_no_writer|]. intros missing.
  destruct missing; [now apply talking_quiet|].
  apply talking_invoke. exact I.
Qed.

Lemma talking_Close (supported : bool) :
  talking Q (database.Close supported library).
Proof.
  unfold database.Close. destruct (negb supported);
    [now apply talking_quiet|].
  apply talking_bind; [now apply talking_quiet|]. intros s0.
  destruct (database.client (fst s0)); [|now apply talking_quiet].
  intros s. pose proof (talking_invoke database.client_close I s) as T.
  destruct (database.invoke library database.client_close s)
    as [[[]|e] s1]; cbn [snd] in *; [exact T|].
  eapply calls_extend_trans; [exact T | apply talking_emit].
Qed.

End Handle.

Lemma sending_bind {A B : Type} (m : M metrics.MetricPipeline A)
  (k : A -> M metrics.MetricPipeline B) :
  sending Q m -> (forall a, sending Q (k a)) -> sending Q (bind m k).
Proof.
  intros Hm Hk p. unfold bind. specialize (Hm p).
  destruct (m p) as [[a|e] p1]; cbn [snd] in *; [|exact Hm].
  eapply calls_extend_trans; [exact Hm | apply Hk].
Qed.

Lemma sending_quiet {A : Type} (m : M metrics.MetricPipeline A) :
  (forall p, database.calls (metrics.outside (snd (m p)))
             = database.calls (metrics.outside p)) ->
  sending Q m.
Proof. intros H p. rewrite H. apply calls_extend_refl. Qed.

Lemma sending_on_config {A : Type} (m : M config.Config A) :
  sending Q (metrics.on_config m).
Proof.
  apply sending_quiet. intros p. unfold metrics.on_config.
  now destruct (m (metrics.config p)).
Qed.

Lemma sending_emit (l : database.logline) : sending Q (metrics.emit l).
Proof.
  apply sending_quiet. intros p. unfold metrics.emit.
  now destruct (metrics.logger p).
Qed.

Lemma sending_on_database {A : Type}
  (m : M (database.InfluxDatabase * database.Outside) A) :
  talking Q m -> sending Q (metrics.on_database m).
Proof.
  intros T p. unfold metrics.on_database.
  destruct (metrics.database p) as [db|]; [|apply calls_extend_refl].
  specialize (T (db, metrics.outside p)).
  now destruct (m (db, metrics.outside p)).
Qed.

End CallTraces.

Section QueueInvariant.
Import Spec.

Variable disk : string -> config.file.
Variable INFLUXDB_SUPPORTED : bool.
Variable library : list database.call -> database.call -> option exn.

Lemma sending_send (Q : list database.Point -> Prop)
  (points : list database.Point) :
  Q points ->
  sending Q (metrics.send disk INFLUXDB_SUPPORTED library points).
Proof.
  intros H. unfold metrics.send, metrics.obtain_database.
  repeat first
    [ apply sending_bind; intros
    | apply sending_on_config
    | apply sending_on_database;
      first [now apply talking_Write | apply talking_Flush]
    | match goal with
      | |- sending _ (match ?x with _ => _ end) => destruct x
      | |- sending _ (if ?b then _ else _) => destruct b
      end
    | now apply sending_quiet ].
Qed.

(** Every point [Flush] builds has a field. *)
Lemma batch_points_fielded (q : list metrics.Metric) (count : Z) :
  Forall point_has_fields (metrics.batch_points q count).
Proof.
  unfold metrics.batch_points.
  apply Forall_map, Forall_forall. intros m I.
  apply filter_In in I. destruct I as [_ I].
  unfold point_has_fields, metrics.encode. cbn [database.point_fields].
  apply dict_of_pairs_nonempty.
  destruct (metrics.fields m); [discriminate | discriminate].
Qed.

Lemma drains_refl (p : metrics.MetricPipeline) : drains p p.
Proof.
  split; [reflexivity|]. split; [now exists O | apply calls_extend_refl].
Qed.

Lemma drains_trans (p q r : metrics.MetricPipeline) :
  drains p q -> drains q r -> drains p r.
Proof.
  intros (B1 & [k1 Q1] & C1) (B2 & [k2 Q2] & C2).
  split; [congruence|]. split.
  - exists (k2 + k1)%nat. now rewrite Q2, Q1, skipn_skipn.
  - eapply calls_extend_trans; eassumption.
Qed.

(** A step that keeps the queue and the batch size and whose writes have
    fields. *)
Lemma drains_kept (p p' : metrics.MetricPipeline) :
  keeps p p' ->
  calls_extend (Forall point_has_fields)
    (database.calls (metrics.outside p))
    (database.calls (metrics.outside p')) ->
  drains p p'.
Proof.
  intros (Kq & Kb & _) C. split; [exact Kb|]. split; [|exact C].
  exists O. exact Kq.
Qed.

Lemma drains_emit (l : database.logline) (p : metrics.MetricPipeline) :
  drains p (snd (metrics.emit l p)).
Proof. apply drains_kept; [apply keeping_emit | apply sending_emit]. Qed.

Lemma Flush_loop_drains (fuel : nat) :
  forall (sent : Z) (p p' : metrics.MetricPipeline) (r : result (bool * Z)),
    metrics.Flush_loop disk INFLUXDB_SUPPORTED library fuel sent p
    = Some (r, p') ->
    drains p p'.
Proof.
  induction fuel as [|fuel IH]; intros sent p p' r E; [discriminate|].
  cbn [metrics.Flush_loop] in E.
  destruct (metrics.IsEmpty p).
  { injection E as _ <-. apply drains_refl. }
  set (points := metrics.batch_points _ _) in E.
  pose proof (keeping_send disk INFLUXDB_SUPPORTED library points p) as K.
  pose proof (sending_send (Forall point_has_fields) points
                (batch_points_fielded _ _) p) as C.
  destruct (metrics.send disk INFLUXDB_SUPPORTED library points p)
    as [[[]|e] p1]; cbn [snd] in K, C.
  - apply IH in E. eapply drains_trans; [|exact E].
    destruct K as (Kq & Kb & _). split; [exact Kb|]. split.
    + cbn. rewrite Kq. now eexists.
    + exact C.
  - eapply drains_trans; [apply (drains_kept _ _ K C)|].
    destruct (metrics.is_RuntimeError e); injection E as _ <-;
      [apply drains_refl | apply drains_emit].
Qed.

Lemma Flush_drains (fuel : nat) (p p' : metrics.MetricPipeline)
  (r : result (bool * Z)) :
  metrics.Flush disk INFLUXDB_SUPPORTED library fuel p = Some (r, p') ->
  drains p p'.
Proof.
  unfold metrics.Flush. destruct (metrics.shutdown p).
  - intros [= _ <-]. apply drains_refl.
  - apply Flush_loop_drains.
Qed.

Lemma disconnect_drains (p : metrics.MetricPipeline) :
  drains p (snd (metrics.disconnect INFLUXDB_SUPPORTED library p)).
Proof.
  apply drains_kept.
  - revert p. change (keeping (metrics.disconnect INFLUXDB_SUPPORTED library)).
    unfold metrics.disconnect.
    apply keeping_bind; [intros p; apply keeps_refl|]. intros self.
    apply keeping_bind; [|intros; apply keeping_set_database].
    destruct (metrics.database self);
      [apply keeping_on_database | intros p; apply keeps_refl].
  - revert p.
    change (sending (Forall point_has_fields)
              (metrics.disconnect INFLUXDB_SUPPORTED library)).
    unfold metrics.disconnect.
    apply sending_bind; [now apply sending_quiet|]. intros self.
    apply sending_bind; [|intros; now apply sending_quiet].
    destruct (metrics.database self);
      [apply sending_on_database, talking_Close | now apply sending_quiet].
Qed.

Lemma drains_set_config (c : config.Config) (p : metrics.MetricPipeline) :
  drains p (snd (metrics.set_config c p)).
Proof. apply drains_kept; [repeat split | apply calls_extend_refl]. Qed.

Lemma drains_set_shutdown (b : bool) (p : metrics.MetricPipeline) :
  drains p (snd (metrics.set_shutdown b p)).
Proof.
  split; [reflexivity|]. split; [now exists O | apply calls_extend_refl].
Qed.

Lemma Reload_drains (fuel : nat) (new : config.Config)
  (p p' : metrics.MetricPipeline) (r : result unit) :
  metrics.Reload disk INFLUXDB_SUPPORTED library fuel new p = Some (r, p') ->
  drains p p'.
Proof.
  unfold metrics.Reload. intros E.
  eapply drains_trans; [apply (drains_emit database.ReloadingPipeline)|].
  destruct (metrics.Flush _ _ _ _ _) as [[[res|e] p1]|] eqn:F;
    [| |discriminate]; apply Flush_drains in F;
    (eapply drains_trans; [exact F|]).
  - unfold bind in E. pose proof (disconnect_drains p1) as D.
    destruct (metrics.disconnect INFLUXDB_SUPPORTED library p1)
      as [[[]|e] p2]; cbn [snd] in D.
    + injection E as _ <-.
      eapply drains_trans; [exact D | apply drains_set_config].
    + injection E as E. rewrite (surjective_pairing (metrics.emit _ p2)) in E.
      injection E as _ <-.
      eapply drains_trans; [exact D | apply drains_emit].
  - injection E as E. rewrite (surjective_pairing (metrics.emit _ p1)) in E.
    injection E as _ <-. apply drains_emit.
Qed.

Lemma finish_drains (crash : bool) (e : exn) (p : metrics.MetricPipeline) :
  drains p
    (snd (((if negb crash
            then metrics.emit (database.ErrorDuringShutdown e)
            else ret tt) ;;
           metrics.set_shutdown true)%eff p)).
Proof.
  unfold bind. destruct (negb crash).
  - pose proof (drains_emit (database.ErrorDuringShutdown e) p) as D.
    rewrite emit_result. cbn [snd].
    eapply drains_trans; [exact D | apply drains_set_shutdown].
  - apply drains_set_shutdown.
Qed.

Lemma Shutdown_drains (fuel : nat) (crash : bool)
  (p p' : metrics.MetricPipeline) (r : result unit) :
  metrics.Shutdown disk INFLUXDB_SUPPORTED library fuel crash p
  = Some (r, p') ->
  drains p p'.
Proof.
  unfold metrics.Shutdown. intros E.
  destruct (metrics.Flush _ _ _ _ _) as [[[res|e] p1]|] eqn:F;
    [| |discriminate]; apply Flush_drains in F;
    (eapply drains_trans; [exact F|]).
  - pose proof (disconnect_drains p1) as D.
    destruct (metrics.disconnect INFLUXDB_SUPPORTED library p1)
      as [[[]|e] p2]; cbn [snd] in D.
    + injection E as _ <-.
      eapply drains_trans; [exact D | apply drains_set_shutdown].
    + injection E as E.
      eapply drains_trans; [exact D|].
      pose proof (finish_drains crash e p2) as Fi.
      rewrite (surjective_pairing (_ p2)) in E. injection E as _ <-.
      exact Fi.
  - injection E as E. pose proof (finish_drains crash e p1) as Fi.
    rewrite (surjective_pairing (_ p1)) in E. injection E as _ <-.
    exact Fi.
Qed.

End QueueInvariant.

Section Arrivals.
Import Spec.

Variable disk : string -> config.file.

Lemma quietly_refl (p : metrics.MetricPipeline) : quietly p p.
Proof. split; [apply keeps_refl | reflexivity]. Qed.

Lemma quietly_trans (p q r : metrics.MetricPipeline) :
  quietly p q -> quietly q r -> quietly p r.
Proof.
  intros [K1 C1] [K2 C2]. split; [eapply keeps_trans; eassumption|congruence].
Qed.

Lemma quietly_on_config {A : Type} (m : M config.Config A)
  (p : metrics.MetricPipeline) :
  quietly p (snd (metrics.on_config m p)).
Proof.
  split; [apply keeping_on_config|]. unfold metrics.on_config.
  now destruct (m (metrics.config p)).
Qed.

Lemma quietly_emit (l : database.logline) (p : metrics.MetricPipeline) :
  quietly p (snd (metrics.emit l p)).
Proof.
  split; [apply keeping_emit|]. unfold metrics.emit.
  now destruct (metrics.logger p).
Qed.

(** The loop of [Enqueue] over the fields of a metric touches neither the
    queue nor the library, and the fields it returns have the names it
    was given, in order. *)
Lemma convert_fields_names (measurement : pyval)
  (todo : list (string * metrics.field)) :
  forall p,
    quietly p (snd (metrics.convert_fields disk measurement todo p))
    /\ forall fs skip,
         fst (metrics.convert_fields disk measurement todo p) = Ok (fs, skip) ->
         map fst fs = map fst todo.
Proof.
  induction todo as [|[name f] rest IH]; intros p.
  { split; [apply quietly_refl|]. now intros fs skip [= <- _]. }
  rewrite convert_fields_cons.
  pose proof (quietly_on_config
                (config.GetField disk measurement (PStr name)) p) as Q1.
  destruct (metrics.on_config _ p) as [[hint|e] p1]; cbn [snd] in Q1;
    [|split; [exact Q1 | discriminate]].
  assert (more : forall c p2,
             quietly p p2 ->
             quietly p
               (snd ((r <- metrics.convert_fields disk measurement rest ;;
                      ret ((name, metrics.mkfield (metrics.original f) c)
                             :: fst r, snd r))%eff p2))
             /\ forall fs skip,
                  fst ((r <- metrics.convert_fields disk measurement rest ;;
                        ret ((name, metrics.mkfield (metrics.original f) c)
                               :: fst r, snd r))%eff p2) = Ok (fs, skip) ->
                  map fst fs = map fst ((name, f) :: rest)).
  { intros c p2 Q2. unfold bind. destruct (IH p2) as [Qr Nr].
    destruct (metrics.convert_fields disk measurement rest p2)
      as [[[fs' skip']|e] p3]; cbn [fst snd] in *.
    - split; [eapply quietly_trans; eassumption|].
      intros fs skip [= <- _]. cbn. f_equal. now apply (Nr fs' skip').
    - split; [eapply quietly_trans; eassumption | discriminate]. }
  destruct (config.ConvertValue (metrics.original f) hint) as [c|e].
  - now apply more.
  - destruct e; try (split; [exact Q1 | discriminate]).
    + unfold bind, get. destruct (metrics.logger p1).
      * pose proof (quietly_emit (database.InvalidMetric measurement) p1) as Q2.
        rewrite emit_result. cbn [fst snd ret].
        split; [eapply quietly_trans; eassumption|].
        now intros fs skip [= <- _].
      * cbn. split; [exact Q1|]. now intros fs skip [= <- _].
    + pose proof (quietly_emit
                    (database.UnableToConvert measurement (metrics.original f))
                    p1) as Q2.
      unfold bind. rewrite emit_result. unfold lift.
      destruct (config.DefaultValue hint) as [d|e'].
      * exact (more d _ (quietly_trans _ _ _ Q1 Q2)).
      * cbn [fst snd]. split; [eapply quietly_trans; eassumption | discriminate].
Qed.

Lemma appends_refl (arrived : list metrics.Metric)
  (p : metrics.MetricPipeline) :
  appends arrived p p.
Proof.
  split; [reflexivity|]. split; [reflexivity|].
  exists []. rewrite app_nil_r. cbn. repeat split; [lia | constructor].
Qed.

Lemma appends_quietly (arrived : list metrics.Metric)
  (p p' : metrics.MetricPipeline) :
  quietly p p' -> appends arrived p p'.
Proof.
  intros [(Kq & Kb & _) C]. split; [exact Kb|]. split; [exact C|].
  exists []. rewrite app_nil_r. cbn. repeat split; [exact Kq | lia | constructor].
Qed.

Lemma appends_trans (a1 a2 : list metrics.Metric)
  (p q r : metrics.MetricPipeline) :
  appends a1 p q -> appends a2 q r -> appends (a1 ++ a2) p r.
Proof.
  intros (B1 & C1 & x1 & Q1 & L1 & F1) (B2 & C2 & x2 & Q2 & L2 & F2).
  split; [congruence|]. split; [congruence|].
  exists (x1 ++ x2)%list. split; [now rewrite Q2, Q1, app_assoc|]. split.
  - rewrite !length_app. lia.
  - apply Forall_app. split.
    + eapply Forall_impl; [|exact F1]. intros x (m & I & S).
      exists m. split; [apply in_or_app; now left | exact S].
    + eapply Forall_impl; [|exact F2]. intros x (m & I & S).
      exists m. split; [apply in_or_app; now right | exact S].
Qed.

(** One object handed to [Enqueue]. *)
Lemma Enqueue_item_appends (i : metrics.item) (p : metrics.MetricPipeline) :
  appends (metric_of i) p (snd (metrics.Enqueue_item disk i p)).
Proof.
  destruct i as [metric|]; cbn [metrics.Enqueue_item].
  2: { apply appends_quietly, quietly_emit. }
  unfold bind at 1.
  destruct (convert_fields_names (metrics.measurement metric)
              (metrics.fields metric) p) as [Q N].
  destruct (metrics.convert_fields disk _ _ p) as [[[fs skip]|e] p1];
    cbn [fst snd] in *; [|now apply appends_quietly].
  specialize (N fs skip eq_refl).
  destruct skip; cbn [negb]; [now apply appends_quietly|].
  unfold bind, get, metrics.set_queue. cbn [snd].
  destruct Q as [(Kq & Kb & _) C].
  split; [exact Kb|]. split; [exact C|].
  eexists. cbn [metrics.queue]. split; [now rewrite Kq|]. split.
  - cbn. lia.
  - constructor; [|constructor]. exists metric. split; [now left | exact N].
Qed.

Lemma for_each_appends (l : list metrics.item) :
  forall p,
    appends (metrics_of (metrics.Collection l)) p
            (snd (for_each l (metrics.Enqueue_item disk) p)).
Proof.
  induction l as [|i r IH]; intros p.
  - apply appends_refl.
  - cbn [for_each]. unfold bind.
    pose proof (Enqueue_item_appends i p) as A.
    change (metrics_of (metrics.Collection (i :: r)))
      with (metric_of i ++ metrics_of (metrics.Collection r))%list.
    destruct (metrics.Enqueue_item disk i p) as [[[]|e] p1]; cbn [snd] in *.
    + eapply appends_trans; [exact A | apply IH].
    + eapply appends_trans; [exact A | apply appends_refl].
Qed.

Lemma Enqueue_appends (a : metrics.argument) (p : metrics.MetricPipeline) :
  appends (metrics_of a) p (snd (metrics.Enqueue disk a p)).
Proof.
  unfold metrics.Enqueue, bind, get.
  destruct (metrics.shutdown p); [apply appends_refl|].
  destruct a as [l|i].
  - apply for_each_appends.
  - exact (for_each_appends [i] p).
Qed.

End Arrivals.

Section AnySequence.
Import Spec.

Variable disk : string -> config.file.
Variable INFLUXDB_SUPPORTED : bool.
Variable library : list database.call -> database.call -> option exn.
Variable fuel : nat.

Lemma moves_drains (arrived : list metrics.Metric)
  (p p' : metrics.MetricPipeline) :
  drains p p' -> moves arrived p p'.
Proof.
  intros (B & [k Q] & C). split; [exact B|]. split; [exact C|].
  rewrite Q. split.
  - apply Forall_forall. intros x X. left.
    rewrite <- (firstn_skipn k (metrics.queue p)). apply in_or_app. now right.
  - rewrite length_skipn. lia.
Qed.

Lemma moves_appends (arrived : list metrics.Metric)
  (p p' : metrics.MetricPipeline) :
  appends arrived p p' -> moves arrived p p'.
Proof.
  intros (B & C & added & Q & L & F). split; [exact B|]. split.
  { rewrite C. apply calls_extend_refl. }
  rewrite Q. split.
  - apply Forall_app. split.
    + apply Forall_forall. intros x X. now left.
    + eapply Forall_impl; [|exact F]. intros x X. now right.
  - rewrite length_app. lia.
Qed.

Lemma moves_trans (a1 a2 : list metrics.Metric)
  (p q r : metrics.MetricPipeline) :
  moves a1 p q -> moves a2 q r -> moves (a1 ++ a2) p r.
Proof.
  intros (B1 & C1 & F1 & L1) (B2 & C2 & F2 & L2).
  split; [congruence|]. split; [eapply calls_extend_trans; eassumption|].
  split.
  - eapply Forall_impl; [|exact F2]. intros x [X|(m & I & S)].
    + rewrite Forall_forall in F1. destruct (F1 x X) as [Y|(m & I & S)].
      * now left.
      * right. exists m. split; [apply in_or_app; now left | exact S].
    + right. exists m. split; [apply in_or_app; now right | exact S].
  - rewrite length_app. lia.
Qed.

Lemma after_request_moves (r : request) (p p' : metrics.MetricPipeline) :
  after_request disk INFLUXDB_SUPPORTED library fuel r p = Some p' ->
  moves (arrivals [r]) p p'.
Proof.
  unfold arrivals. cbn [flat_map]. rewrite app_nil_r.
  destruct r as [a| |new|crash]; cbn [after_request].
  - intros [= <-]. apply moves_appends, Enqueue_appends.
  - destruct (metrics.Flush _ _ _ _ _) as [[res p1]|] eqn:E; [|discriminate].
    intros [= <-]. eapply moves_drains, Flush_drains, E.
  - destruct (metrics.Reload _ _ _ _ _ _) as [[res p1]|] eqn:E;
      [|discriminate].
    intros [= <-]. eapply moves_drains, Reload_drains, E.
  - destruct (metrics.Shutdown _ _ _ _ _ _) as [[res p1]|] eqn:E;
      [|discriminate].
    intros [= <-]. eapply moves_drains, Shutdown_drains, E.
Qed.

Lemma arrivals_cons (r : request) (rest : list request) :
  arrivals (r :: rest) = (arrivals [r] ++ arrivals rest)%list.
Proof. unfold arrivals. cbn [flat_map]. now rewrite app_nil_r. Qed.

Lemma after_requests_moves (rs : list request) :
  forall p p',
    after_requests disk INFLUXDB_SUPPORTED library fuel rs p = Some p' ->
    moves (arrivals rs) p p'.
Proof.
  induction rs as [|r rest IH]; intros p p'; cbn [after_requests].
  - intros [= <-]. apply moves_appends, appends_refl.
  - destruct (after_request _ _ _ _ r p) as [p1|] eqn:E; [|discriminate].
    intros R. apply after_request_moves in E. apply IH in R.
    rewrite arrivals_cons. eapply moves_trans; eassumption.
Qed.

(** Each call returns when the rounds allowed exceed the records there
    can be. *)
Lemma after_request_returns (r : request) (p : metrics.MetricPipeline) :
  1 <= metrics.batchSize p ->
  (List.length (metrics.queue p) < fuel)%nat ->
  exists p', after_request disk INFLUXDB_SUPPORTED library fuel r p = Some p'.
Proof.
  intros B L. destruct r as [a| |new|crash]; cbn [after_request].
  - now eexists.
  - destruct (Flush_total disk INFLUXDB_SUPPORTED library fuel p B L)
      as (res & p' & ->). now eexists.
  - unfold metrics.Reload.
    destruct (keeping_emit database.ReloadingPipeline p) as (Kq & Kb & _).
    destruct (Flush_total disk INFLUXDB_SUPPORTED library fuel
                (snd (metrics.emit database.ReloadingPipeline p)))
      as (res & p1 & ->); [now rewrite Kb | now rewrite Kq |].
    destruct res as [ok|e]; [|now eexists].
    destruct ((metrics.disconnect INFLUXDB_SUPPORTED library ;;
               metrics.set_config new)%eff p1) as [[[]|e] p2]; now eexists.
  - unfold metrics.Shutdown.
    destruct (Flush_total disk INFLUXDB_SUPPORTED library fuel p B L)
      as (res & p1 & ->).
    destruct res as [ok|e]; [|now eexists].
    destruct (metrics.disconnect INFLUXDB_SUPPORTED library p1)
      as [[[]|e] p2]; now eexists.
Qed.

Lemma after_requests_return (rs : list request) :
  forall p,
    1 <= metrics.batchSize p ->
    (List.length (metrics.queue p) + List.length (arrivals rs) < fuel)%nat ->
    exists p',
      after_requests disk INFLUXDB_SUPPORTED library fuel rs p = Some p'.
Proof.
  induction rs as [|r rest IH]; intros p B L; cbn [after_requests].
  - now eexists.
  - rewrite arrivals_cons, length_app in L.
    destruct (after_request_returns r p B) as [p1 E]; [lia|].
    rewrite E. destruct (after_request_moves r p p1 E) as (B1 & _ & _ & L1).
    apply IH; [now rewrite B1 | lia].
Qed.

End AnySequence.

(** C3, as the code has it.  A metric that has no fields passes [Enqueue]
    untouched and is appended to the queue.  After any sequence of
    [Enqueue], [Flush], [Reload] and [Shutdown] calls, each of which may
    return or raise, every record in the queue was in the queue before
    the sequence or has the field names, in order, of a metric the
    sequence handed to [Enqueue]; so the queue holds no record without
    fields when it held none before and none was handed in.  Every point
    of every record the sequence handed to the writer of the backend has
    at least one field.  With a batch size of one or more, and more rounds
    allowed to each [Flush] than there can be records, every such
    sequence comes to its end. *)
Theorem queue_keeps_the_fields_that_arrive :
  (forall (disk : string -> config.file) (p : metrics.MetricPipeline)
          (metric : metrics.Metric),
      metrics.shutdown p = false ->
      metrics.fields metric = [] ->
      exists p',
        metrics.Enqueue disk (metrics.Single (metrics.AMetric metric)) p
        = (Ok tt, p')
        /\ metrics.queue p' = (metrics.queue p ++ [metric])%list)
  /\
  (forall (disk : string -> config.file) (supported : bool)
          (library : list database.call -> database.call -> option exn)
          (fuel : nat) (rs : list request) (p p' : metrics.MetricPipeline),
      after_requests disk supported library fuel rs p = Some p' ->
      Forall (comes_from (metrics.queue p) (arrivals rs)) (metrics.queue p')
      /\ (Forall has_fields (metrics.queue p) ->
          Forall has_fields (arrivals rs) ->
          Forall has_fields (metrics.queue p'))
      /\ calls_extend (Forall point_has_fields)
           (database.calls (metrics.outside p))
           (database.calls (metrics.outside p')))
  /\
  (forall (disk : string -> config.file) (supported : bool)
          (library : list database.call -> database.call -> option exn)
          (fuel : nat) (rs : list request) (p : metrics.MetricPipeline),
      1 <= metrics.batchSize p ->
      (List.length (metrics.queue p) + List.length (arrivals rs) < fuel)%nat ->
      exists p', after_requests disk supported library fuel rs p = Some p').
Proof.
  split; [|split].
  - intros disk p [en ts tg ms fs] S F. simpl in F. subst fs.
    unfold metrics.Enqueue. unfold bind at 1. unfold get at 1. rewrite S.
    eexists. split; reflexivity.
  - intros disk supported library fuel rs p p' E.
    destruct (after_requests_moves disk supported library fuel rs p p' E)
      as (_ & C & F & _).
    split; [exact F|]. split; [|exact C].
    intros Hq Ha. eapply Forall_impl; [|exact F].
    intros x [X|(m & I & S)].
    + rewrite Forall_forall in Hq. now apply Hq.
    + rewrite Forall_forall in Ha. specialize (Ha m I).
      unfold has_fields, same_names in *.
      destruct (metrics.fields x); [|discriminate].
      destruct (metrics.fields m); [contradiction | discriminate].
  - intros disk supported library fuel rs p B L.
    now apply after_requests_return.
Qed.

(** A metric without fields on a running pipeline; and a collection with
    an object that is no metric, a [Flush], a [Reload] and a [Shutdown],
    with metrics handed in between. *)
Lemma queue_keeps_the_fields_that_arrive_witness :
  (exists p',
      metrics.Enqueue Examples.disk
        (metrics.Single (metrics.AMetric Examples.bare_metric))
        Examples.running
      = (Ok tt, p')
      /\ metrics.queue p' = [Examples.bare_metric])
  /\
  (exists p',
      after_requests Examples.disk true Examples.always_up 26 Examples.session
        Examples.running = Some p'
      /\ Forall has_fields (metrics.queue p')
      /\ calls_extend (Forall point_has_fields) []
           (database.calls (metrics.outside p'))).
Proof.
  destruct queue_keeps_the_fields_that_arrive as (Bare & Inv & Ret).
  split.
  - apply (Bare Examples.disk Examples.running Examples.bare_metric);
      reflexivity.
  - destruct (Ret Examples.disk true Examples.always_up 26%nat
                Examples.session Examples.running) as [p' E].
    + vm_compute. discriminate.
    + vm_compute. lia.
    + exists p'. split; [exact E|].
      destruct (Inv _ _ _ _ _ _ _ E) as (_ & F & C).
      split; [|exact C]. apply F; [constructor|].
      repeat constructor; discriminate.
Defined.
